(** * Order lifecycle of the food-delivery application

    A shallow embedding of the order router (creation, listing, status
    update, tracking, driver assignment) and of the checkout page's fee
    and total computation, with the properties the specification states
    about them.

    Conventions
    - JavaScript strings are [string]; a property that may be absent
      (undefined or null) is an [option].
    - Timestamps ([Date] values) are milliseconds since the epoch, in [Z].
    - The numbers of the checkout page are binary64 floats, the primitive
      floats.
    - The persistent storage layer ([storage]) is not part of the sources;
      it is modelled from the specification's data model as finite maps.
    - HTTP responses are a status code and a JSON body. *)

From stdpp Require Import gmap strings list fin_maps pretty sorting.
From Stdlib Require Import Lia.
From Stdlib Require PrimFloat FloatOps SpecFloat.

#[local] Set Warnings "-clear-no-such-hyp".
#[local] Set Warnings "-inexact-float".

Local Open Scope Z_scope.

(** ** JavaScript values *)

Module Js.

(** Truthiness of a string: only the empty string is falsy. *)
Definition truthy_string (s : string) : bool := negb (bool_decide (s = "")).

(** Truthiness of a possibly absent string property. *)
Definition truthy (v : option string) : bool :=
  match v with
  | Some s => truthy_string s
  | None => false
  end.

(** [a || b] on possibly absent strings. *)
Definition or_else (a b : option string) : option string :=
  if truthy a then a else b.

(** [a === b] where [a] is a possibly absent property and [b] a string. *)
Definition strict_eq (a : option string) (b : string) : bool :=
  match a with
  | Some s => bool_decide (s = b)
  | None => false
  end.

(** The values a property read on an object literal with string values
    can produce: one of the literal's strings, or a member inherited
    from [Object.prototype] (a function, or the prototype object itself
    for [__proto__]). *)
Inductive value : Type :=
| VString (s : string)
| VInherited (name : string).

Definition truthy_value (v : value) : bool :=
  match v with
  | VString s => truthy_string s
  | VInherited _ => true
  end.

(** Property names every ordinary object inherits from
    [Object.prototype]. *)
Definition object_prototype_names : list string :=
  [ "constructor"; "__defineGetter__"; "__defineSetter__"; "hasOwnProperty";
    "__lookupGetter__"; "__lookupSetter__"; "isPrototypeOf";
    "propertyIsEnumerable"; "toString"; "valueOf"; "__proto__";
    "toLocaleString" ].

(** Own properties of an object literal, in source order. *)
Fixpoint own_property (props : list (string * string)) (key : string)
  : option string :=
  match props with
  | [] => None
  | (k, v) :: rest => if bool_decide (k = key) then Some v else own_property rest key
  end.

(** [obj[key]] on an object literal: own properties first, then the
    prototype chain, otherwise undefined. *)
Definition get (props : list (string * string)) (key : string) : option value :=
  match own_property props key with
  | Some v => Some (VString v)
  | None =>
      if bool_decide (key ∈ object_prototype_names)
      then Some (VInherited key)
      else None
  end.

(** [Array.prototype.findIndex]: the first index whose element passes
    the test, or -1. *)
Fixpoint findIndex {A} (test : A → bool) (l : list A) : Z :=
  match l with
  | [] => -1
  | x :: rest =>
      if test x then 0
      else let i := findIndex test rest in
           if bool_decide (i = -1) then -1 else i + 1
  end.

End Js.

(** ** Data model *)

Record Order := mkOrder {
  id : string;
  orderNumber : string;
  customerName : string;
  customerPhone : string;
  deliveryAddress : string;
  items : string;
  subtotal : string;
  deliveryFee : string;
  total : string;
  totalAmount : string;
  status : string;
  driverId : option string;
  restaurantId : option string;
  customerId : option string;
  createdAt : Z;
  updatedAt : Z
}.

Record Driver := mkDriver {
  driver_id : string;
  driver_name : string;
  driver_phone : string;
  isAvailable : bool;
  currentLocation : option string
}.

Record Notification := mkNotification {
  n_type : string;
  n_title : string;
  n_message : Js.value;
  n_recipientType : string;
  n_recipientId : option string;
  n_orderId : string;
  n_isRead : bool
}.

(** ** Storage

    Modelled from the spec: the storage layer ([storage.getOrder],
    [getOrders], [createOrder], [updateOrder], [getDriver], [updateDriver],
    [createNotification]) is imported by the router and is not among the
    sources. Following the data model, orders and drivers are records
    keyed by their identifier, an update merges the given fields into the
    stored record and returns it (or nothing when the record is absent),
    and notifications are appended to their own table. *)

Module Storage.

Record Store := mkStore {
  orders : gmap string Order;
  drivers : gmap string Driver;
  notifications : list Notification
}.

Definition set_orders (st : Store) (m : gmap string Order) : Store :=
  mkStore m (drivers st) (notifications st).

Definition set_drivers (st : Store) (m : gmap string Driver) : Store :=
  mkStore (orders st) m (notifications st).

Definition set_notifications (st : Store) (l : list Notification) : Store :=
  mkStore (orders st) (drivers st) l.

(** The fields of a partial order update, as a request body carries them;
    [None] is a field the body does not give, which leaves the stored
    value as it is. A body may name any field of an order, the
    identifier, the order number and the creation time included: the
    update handler hands the whole body to the store. *)
Record OrderPatch := mkOrderPatch {
  p_id : option string;
  p_orderNumber : option string;
  p_customerName : option string;
  p_customerPhone : option string;
  p_deliveryAddress : option string;
  p_items : option string;
  p_subtotal : option string;
  p_deliveryFee : option string;
  p_total : option string;
  p_totalAmount : option string;
  p_status : option string;
  p_driverId : option string;
  p_restaurantId : option string;
  p_customerId : option string;
  p_createdAt : option Z;
  p_updatedAt : option Z
}.

Definition empty_patch : OrderPatch :=
  mkOrderPatch None None None None None None None None None None None None None
    None None None.

(** [{...updateData, updatedAt: t}] *)
Definition with_updatedAt (p : OrderPatch) (t : Z) : OrderPatch :=
  mkOrderPatch (p_id p) (p_orderNumber p)
    (p_customerName p) (p_customerPhone p) (p_deliveryAddress p)
    (p_items p) (p_subtotal p) (p_deliveryFee p) (p_total p) (p_totalAmount p)
    (p_status p) (p_driverId p) (p_restaurantId p) (p_customerId p)
    (p_createdAt p) (Some t).

(** An optional field of the record takes the patch's value when given. *)
Definition merge_opt (old new : option string) : option string :=
  match new with
  | Some v => Some v
  | None => old
  end.

Definition apply_patch (o : Order) (p : OrderPatch) : Order :=
  mkOrder
    (default (id o) (p_id p))
    (default (orderNumber o) (p_orderNumber p))
    (default (customerName o) (p_customerName p))
    (default (customerPhone o) (p_customerPhone p))
    (default (deliveryAddress o) (p_deliveryAddress p))
    (default (items o) (p_items p))
    (default (subtotal o) (p_subtotal p))
    (default (deliveryFee o) (p_deliveryFee p))
    (default (total o) (p_total p))
    (default (totalAmount o) (p_totalAmount p))
    (default (status o) (p_status p))
    (merge_opt (driverId o) (p_driverId p))
    (merge_opt (restaurantId o) (p_restaurantId p))
    (merge_opt (customerId o) (p_customerId p))
    (default (createdAt o) (p_createdAt p))
    (default (updatedAt o) (p_updatedAt p)).

Definition getOrder (st : Store) (oid : string) : option Order :=
  orders st !! oid.

Definition getOrders (st : Store) : list Order :=
  (map_to_list (orders st)).*2.

Definition updateOrder (st : Store) (oid : string) (p : OrderPatch)
  : Store * option Order :=
  match orders st !! oid with
  | Some o =>
      let o' := apply_patch o p in
      (set_orders st (<[oid := o']> (orders st)), Some o')
  | None => (st, None)
  end.

Definition getDriver (st : Store) (did : string) : option Driver :=
  drivers st !! did.

(** [updateDriver(id, { isAvailable })] *)
Definition set_available (d : Driver) (b : bool) : Driver :=
  mkDriver (driver_id d) (driver_name d) (driver_phone d) b (currentLocation d).

Definition updateDriver (st : Store) (did : string) (available : bool)
  : Store * option Driver :=
  match drivers st !! did with
  | Some d =>
      let d' := set_available d available in
      (set_drivers st (<[did := d']> (drivers st)), Some d')
  | None => (st, None)
  end.

(** The validated data of a new order, as [createOrder] receives it. *)
Record InsertOrder := mkInsertOrder {
  io_orderNumber : string;
  io_customerName : string;
  io_customerPhone : string;
  io_deliveryAddress : string;
  io_items : string;
  io_subtotal : string;
  io_deliveryFee : string;
  io_total : string;
  io_totalAmount : string;
  io_status : string;
  io_driverId : option string;
  io_restaurantId : option string;
  io_customerId : option string;
  io_createdAt : Z;
  io_updatedAt : Z
}.

(** [createOrder] persists the order under the identifier the store
    generates for it ([new_id]) and returns the stored record. *)
Definition createOrder (st : Store) (new_id : string) (d : InsertOrder)
  : Store * Order :=
  let o := mkOrder new_id (io_orderNumber d) (io_customerName d)
             (io_customerPhone d) (io_deliveryAddress d) (io_items d)
             (io_subtotal d) (io_deliveryFee d) (io_total d) (io_totalAmount d)
             (io_status d) (io_driverId d) (io_restaurantId d) (io_customerId d)
             (io_createdAt d) (io_updatedAt d) in
  (set_orders st (<[new_id := o]> (orders st)), o).

(** [createNotification] either appends the record ([Some]) or throws
    ([None]); [ok] says which happens on this call. *)
Definition createNotification (ok : bool) (st : Store) (n : Notification)
  : option Store :=
  if ok then Some (set_notifications st (notifications st ++ [n])) else None.

End Storage.

(** ** The order router *)

Module OrdersRoute.
Import Storage.

(** One synthesized step of the tracking timeline. *)
Record TrackingStep := mkTrackingStep {
  t_id : string;
  t_status : string;
  t_message : string;
  t_timestamp : Z;
  t_createdByType : string
}.

Record DriverInfo := mkDriverInfo {
  di_id : string;
  di_name : string;
  di_phone : string;
  di_currentLocation : option string
}.

(** JSON bodies the handlers send. *)
Inductive Body : Type :=
| BError (error : string) (details : option string)
| BOrder (order : Order)
| BOrders (list_of_orders : list Order)
| BCreated (order : Order) (number : string)
| BAssigned (order : Order)
| BTrack (order : Order) (tracking : list TrackingStep) (driver : option DriverInfo).

Record Response := mkResponse {
  code : Z;
  body : Body
}.

Definition json (c : Z) (b : Body) : Response := mkResponse c b.
Definition error_json (c : Z) (msg : string) : Response :=
  mkResponse c (BError msg None).

(** *** POST / : create an order (router file, lines 151-200) *)

(** The request body of an order creation. A client may send [status]
    and [orderNumber] too; the handler overrides both. *)
Record OrderData := mkOrderData {
  od_customerName : option string;
  od_customerPhone : option string;
  od_deliveryAddress : option string;
  od_items : option string;
  od_subtotal : option string;
  od_deliveryFee : option string;
  od_total : option string;
  od_totalAmount : option string;
  od_status : option string;
  od_orderNumber : option string;
  od_driverId : option string;
  od_restaurantId : option string;
  od_customerId : option string
}.

(** [`ORD${Date.now()}${Math.floor(Math.random() * 1000)}`]; [rnd] is
    the value of [Math.floor(Math.random() * 1000)]. *)
Definition generate_orderNumber (now : Z) (rnd : N) : string :=
  "ORD" +:+ pretty now +:+ pretty rnd.

(** [{...orderData, orderNumber, status: "pending", createdAt, updatedAt}];
    a text field the body does not give is carried as the empty string. *)
Definition newOrderData (d : OrderData) (number : string) (now : Z) : InsertOrder :=
  mkInsertOrder number
    (default "" (od_customerName d))
    (default "" (od_customerPhone d))
    (default "" (od_deliveryAddress d))
    (default "" (od_items d))
    (default "" (od_subtotal d))
    (default "" (od_deliveryFee d))
    (default "" (od_total d))
    (default "" (od_totalAmount d))
    "pending"
    (od_driverId d) (od_restaurantId d) (od_customerId d)
    now now.

Definition missing_required (d : OrderData) : bool :=
  negb (Js.truthy (od_customerName d))
  || negb (Js.truthy (od_customerPhone d))
  || negb (Js.truthy (od_deliveryAddress d)).

Definition new_order_notification (d : OrderData) (number : string) (o : Order)
  : Notification :=
  mkNotification "new_order" "طلب جديد"
    (Js.VString ("طلب جديد من " +:+ default "" (od_customerName d) +:+ " - " +:+ number))
    "admin" None (id o) false.

(** A notification attempt inside [try { ... } catch { console.error }]:
    a throw leaves the store as it was and the handler goes on. *)
Definition try_notify (ok : bool) (st : Store) (n : Notification) : Store :=
  match createNotification ok st n with
  | Some st' => st'
  | None => st
  end.

Section Create.

(** The handler reads the clock for the order number and for the two
    timestamps; the three reads are taken at one instant, [now]. *)

(** [insertOrderSchema] comes from the shared schema, which is not among
    the sources: [parse] returns the data when the schema accepts it and
    throws otherwise. [schema_accepts] is that schema's verdict. *)
Variable schema_accepts : InsertOrder → bool.

Definition insertOrderSchema_parse (d : InsertOrder) : option InsertOrder :=
  if schema_accepts d then Some d else None.

Definition post_order (now : Z) (rnd : N) (new_id : string) (notify_ok : bool)
    (st : Store) (orderData : OrderData) : Store * Response :=
  if missing_required orderData then
    (st, json 400 (BError "البيانات المطلوبة ناقصة"
                     (Some "الاسم ورقم الهاتف وعنوان التوصيل مطلوبة")))
  else
    let number := generate_orderNumber now rnd in
    match insertOrderSchema_parse (newOrderData orderData number now) with
    | None => (st, error_json 500 "خطأ في إنشاء الطلب")
    | Some validatedData =>
        let '(st1, newOrder) := createOrder st new_id validatedData in
        let st2 := try_notify notify_ok st1
                     (new_order_notification orderData number newOrder) in
        (st2, json 201
                (BCreated newOrder
                   (default "" (Js.or_else (Some (orderNumber newOrder))
                                           (Some (id newOrder))))))
    end.

End Create.

(** *** GET / : list orders with filters (lines 203-234) *)

Record OrderQuery := mkOrderQuery {
  q_status : option string;
  q_driverId : option string;
  q_restaurantId : option string;
  q_customerId : option string
}.

(** [Array.prototype.sort] with a comparator is stable; it is modelled as
    a stable insertion sort (for a consistent comparator every stable sort
    returns the same array). [cmp a b < 0] puts [a] first. *)
Fixpoint sort_insert {A} (cmp : A → A → Z) (x : A) (l : list A) : list A :=
  match l with
  | [] => [x]
  | y :: rest =>
      if Z.leb (cmp x y) 0 then x :: y :: rest
      else y :: sort_insert cmp x rest
  end.

Fixpoint js_sort {A} (cmp : A → A → Z) (l : list A) : list A :=
  match l with
  | [] => []
  | x :: rest => sort_insert cmp x (js_sort cmp rest)
  end.

(** [(a, b) => new Date(b.createdAt).getTime() - new Date(a.createdAt).getTime()] *)
Definition newest_first (a b : Order) : Z := createdAt b - createdAt a.

(** One [if (value) orders = orders.filter(...)] step. *)
Definition filter_if (applies : bool) (keep : Order → bool) (l : list Order)
  : list Order :=
  if applies then List.filter keep l else l.

Definition status_filter_applies (q : OrderQuery) : bool :=
  Js.truthy (q_status q) && negb (Js.strict_eq (q_status q) "all").

Definition list_orders (st : Store) (q : OrderQuery) : Response :=
  let orders0 := getOrders st in
  let orders1 := filter_if (status_filter_applies q)
                   (λ order, Js.strict_eq (q_status q) (status order)) orders0 in
  let orders2 := filter_if (Js.truthy (q_driverId q))
                   (λ order, bool_decide (driverId order = q_driverId q)) orders1 in
  let orders3 := filter_if (Js.truthy (q_restaurantId q))
                   (λ order, bool_decide (restaurantId order = q_restaurantId q)) orders2 in
  let orders4 := filter_if (Js.truthy (q_customerId q))
                   (λ order, bool_decide (customerId order = q_customerId q)) orders3 in
  json 200 (BOrders (js_sort newest_first orders4)).

(** *** GET /:id (lines 237-251) *)

Definition get_order (st : Store) (oid : string) : Response :=
  match getOrder st oid with
  | None => error_json 404 "الطلب غير موجود"
  | Some order => json 200 (BOrder order)
  end.

(** *** PUT /:id : update an order (lines 254-302) *)

(** The status → message table of the update handler (an object literal). *)
Definition statusMessages : list (string * string) :=
  [ ("confirmed", "تم تأكيد طلبك");
    ("preparing", "جاري تحضير طلبك");
    ("ready", "طلبك جاهز للاستلام");
    ("picked_up", "تم استلام طلبك من المطعم");
    ("on_way", "طلبك في الطريق إليك");
    ("delivered", "تم تسليم طلبك بنجاح");
    ("cancelled", "تم إلغاء طلبك") ].

Definition fallback_message : string := "تم تحديث حالة طلبك".

(** [statusMessages[status] || 'تم تحديث حالة طلبك'] *)
Definition status_message (new_status : string) : Js.value :=
  match Js.get statusMessages new_status with
  | Some v => if Js.truthy_value v then v else Js.VString fallback_message
  | None => Js.VString fallback_message
  end.

Definition order_update_notification (oid new_status : string) (updatedOrder : Order)
  : Notification :=
  mkNotification "order_update" "تحديث الطلب"
    (status_message new_status)
    "customer"
    (Js.or_else (customerId updatedOrder) (Some (customerPhone updatedOrder)))
    oid false.

Definition put_order (now : Z) (notify_ok : bool) (st : Store) (oid : string)
    (updateData : OrderPatch) : Store * Response :=
  let '(st1, updated) := updateOrder st oid (with_updatedAt updateData now) in
  match updated with
  | None => (st1, error_json 404 "الطلب غير موجود")
  | Some updatedOrder =>
      let st2 :=
        match p_status updateData with
        | Some new_status =>
            if Js.truthy_string new_status
            then try_notify notify_ok st1
                   (order_update_notification oid new_status updatedOrder)
            else st1
        | None => st1
        end in
      (st2, json 200 (BOrder updatedOrder))
  end.

(** *** GET /:id/track : the synthesized timeline (lines 305-377) *)

Record StatusStep := mkStatusStep {
  s_status : string;
  s_message : string;
  s_offset : Z
}.

Definition statusSteps : list StatusStep :=
  [ mkStatusStep "pending" "تم استلام الطلب" 0;
    mkStatusStep "confirmed" "تم تأكيد الطلب من المطعم" 5;
    mkStatusStep "preparing" "جاري تحضير الطلب" 10;
    mkStatusStep "ready" "الطلب جاهز للاستلام" 20;
    mkStatusStep "picked_up" "تم استلام الطلب من المطعم" 25;
    mkStatusStep "on_way" "الطلب في الطريق إليك" 30;
    mkStatusStep "delivered" "تم تسليم الطلب بنجاح" 45 ].

(** [i === 0 ? 'system' : i <= 2 ? 'restaurant' : 'driver'] *)
Definition createdByType (i : Z) : string :=
  if Z.eqb i 0 then "system" else if Z.leb i 2 then "restaurant" else "driver".

(** The entry pushed at index [i] of the loop. *)
Definition tracking_entry (baseTime : Z) (i : Z) (step : StatusStep) : TrackingStep :=
  mkTrackingStep (pretty (i + 1)) (s_status step) (s_message step)
    (baseTime + s_offset step * 60000) (createdByType i).

(** [for (let i = 0; i <= currentStatusIndex; i++) tracking.push(...)],
    started at index [i] with [fuel] bounding the iterations left. The
    read [statusSteps[i]] of an index past the table would throw. *)
Fixpoint tracking_loop (fuel : nat) (baseTime : Z) (i currentStatusIndex : Z)
    (tracking : list TrackingStep) : option (list TrackingStep) :=
  if Z.leb i currentStatusIndex then
    match fuel with
    | O => None
    | S fuel' =>
        match statusSteps !! Z.to_nat i with
        | Some step =>
            tracking_loop fuel' baseTime (i + 1) currentStatusIndex
              (tracking ++ [tracking_entry baseTime i step])
        | None => None
        end
    end
  else Some tracking.

Definition currentStatusIndex (order : Order) : Z :=
  Js.findIndex (λ step, bool_decide (s_status step = status order)) statusSteps.

Definition build_tracking (order : Order) : option (list TrackingStep) :=
  tracking_loop (S (length statusSteps)) (createdAt order) 0
    (currentStatusIndex order) [].

Definition driver_info (st : Store) (order : Order) : option DriverInfo :=
  match driverId order with
  | Some d =>
      if Js.truthy_string d then
        match getDriver st d with
        | Some driver =>
            Some (mkDriverInfo (driver_id driver) (driver_name driver)
                    (driver_phone driver) (currentLocation driver))
        | None => None
        end
      else None
  | None => None
  end.

(** The response's order also carries the parsed item list and the
    numeric total ([JSON.parse], [parseFloat]); they are views of stored
    fields and are left out of the body here. *)
Definition track_order (st : Store) (oid : string) : Response :=
  match getOrder st oid with
  | None => error_json 404 "الطلب غير موجود"
  | Some order =>
      match build_tracking order with
      | Some tracking => json 200 (BTrack order tracking (driver_info st order))
      | None => error_json 500 "خطأ في تتبع الطلب"
      end
  end.

(** *** PUT /:id/assign-driver (lines 380-441) *)

Definition assign_patch (d : string) (now : Z) : OrderPatch :=
  mkOrderPatch None None None None None None None None None None
    (Some "preparing") (Some d) None None None (Some now).

Definition order_assigned_notification (oid : string) (order : Order) (driver : Driver)
  : Notification :=
  mkNotification "order_assigned" "تم تعيين سائق لطلبك"
    (Js.VString ("السائق " +:+ driver_name driver +:+ " سيقوم بتوصيل طلبك"))
    "customer"
    (Js.or_else (customerId order) (Some (customerPhone order)))
    oid false.

Definition resp_driverId_required : Response := error_json 400 "معرف السائق مطلوب".
Definition resp_order_not_found : Response := error_json 404 "الطلب غير موجود".
Definition resp_already_assigned : Response :=
  error_json 400 "الطلب مُعيَّن لسائق آخر بالفعل".
Definition resp_driver_not_found : Response := error_json 404 "السائق غير موجود".
Definition resp_update_failed : Response := error_json 404 "فشل في تحديث الطلب".

(** The handler run from start to end with no other request in between. *)
Definition assign_driver (now : Z) (notify_ok : bool) (st : Store) (oid : string)
    (body_driverId : option string) : Store * Response :=
  if negb (Js.truthy body_driverId) then (st, resp_driverId_required)
  else
    let d := default "" body_driverId in
    match getOrder st oid with
    | None => (st, resp_order_not_found)
    | Some order =>
        if Js.truthy (driverId order) then (st, resp_already_assigned)
        else
          match getDriver st d with
          | None => (st, resp_driver_not_found)
          | Some driver =>
              let '(st1, updated) := updateOrder st oid (assign_patch d now) in
              match updated with
              | None => (st1, resp_update_failed)
              | Some updatedOrder =>
                  let st2 := (updateDriver st1 d false).1 in
                  let st3 := try_notify notify_ok st2
                               (order_assigned_notification oid order driver) in
                  (st3, json 200 (BAssigned updatedOrder))
              end
          end
    end.

(** The same handler as a task that gives control back at every [await]:
    each constructor is a point where the handler waits for a storage
    call, holding the local variables bound so far; a step runs the
    synchronous code up to and including the next storage call. *)
Inductive AssignTask : Type :=
| AtStart (oid : string) (body_driverId : option string)
| AtGotOrder (oid d : string) (order : option Order)
| AtGotDriver (oid d : string) (order : Order) (driver : option Driver)
| AtUpdatedOrder (oid d : string) (order : Order) (driver : Driver)
    (updatedOrder : option Order)
| AtUpdatedDriver (oid d : string) (order : Order) (driver : Driver)
    (updatedOrder : Order)
| AtDone (r : Response).

Definition assign_step (now : Z) (notify_ok : bool) (st : Store) (t : AssignTask)
  : Store * AssignTask :=
  match t with
  | AtStart oid body_driverId =>
      if negb (Js.truthy body_driverId) then (st, AtDone resp_driverId_required)
      else
        let d := default "" body_driverId in
        (st, AtGotOrder oid d (getOrder st oid))
  | AtGotOrder oid d None => (st, AtDone resp_order_not_found)
  | AtGotOrder oid d (Some order) =>
      if Js.truthy (driverId order) then (st, AtDone resp_already_assigned)
      else (st, AtGotDriver oid d order (getDriver st d))
  | AtGotDriver oid d order None => (st, AtDone resp_driver_not_found)
  | AtGotDriver oid d order (Some driver) =>
      let '(st1, updated) := updateOrder st oid (assign_patch d now) in
      (st1, AtUpdatedOrder oid d order driver updated)
  | AtUpdatedOrder oid d order driver None => (st, AtDone resp_update_failed)
  | AtUpdatedOrder oid d order driver (Some updatedOrder) =>
      ((updateDriver st d false).1, AtUpdatedDriver oid d order driver updatedOrder)
  | AtUpdatedDriver oid d order driver updatedOrder =>
      (try_notify notify_ok st (order_assigned_notification oid order driver),
       AtDone (json 200 (BAssigned updatedOrder)))
  | AtDone r => (st, AtDone r)
  end.

(** One request alone: [n] steps in a row. *)
Fixpoint run_alone (n : nat) (now : Z) (notify_ok : bool) (st : Store) (t : AssignTask)
  : Store * AssignTask :=
  match n with
  | O => (st, t)
  | S n' =>
      let '(st', t') := assign_step now notify_ok st t in
      run_alone n' now notify_ok st' t'
  end.

(** Two requests in flight: the schedule says which of the two tasks
    takes the next step ([false] the first, [true] the second). *)
Fixpoint run_two (schedule : list bool) (now : Z) (notify_ok : bool) (st : Store)
    (a b : AssignTask) : Store * AssignTask * AssignTask :=
  match schedule with
  | [] => (st, a, b)
  | false :: rest =>
      let '(st', a') := assign_step now notify_ok st a in
      run_two rest now notify_ok st' a' b
  | true :: rest =>
      let '(st', b') := assign_step now notify_ok st b in
      run_two rest now notify_ok st' a b'
  end.

(** The error classes of the specification, read off a response. *)
Inductive Outcome : Type :=
| Success
| ValidationError
| NotFound
| Conflict
| Internal.

Definition assign_outcome (r : Response) : Outcome :=
  if Z.eqb (code r) 200 then Success
  else if Z.eqb (code r) 404 then NotFound
  else if Z.eqb (code r) 400 then
    match body r with
    | BError msg _ =>
        if bool_decide (msg = "الطلب مُعيَّن لسائق آخر بالفعل") then Conflict
        else ValidationError
    | _ => ValidationError
    end
  else Internal.

End OrdersRoute.

(** ** The checkout page: delivery fee (Cart.tsx, lines 37-125)

    JavaScript numbers are binary64 floats, which are the primitive
    floats here: the differences, products, quotients, the sum and the
    square root of the distance formula are the IEEE operations on them.
    [Math.sin], [Math.cos] and [Math.atan2] are approximations the
    language leaves to the engine, fixing their results at a few
    arguments only; they are parameters of the distance. *)

Module CartFee.
Import PrimFloat.
Local Open Scope float_scope.

(** [Math.PI] *)
Definition Math_PI : float := 3.141592653589793.

(** [Math.round] on a number [m * 2^e] with [e < 0], of the sign given:
    the magnitude of the nearest integer, a tie going to the integer
    closer to plus infinity. *)
Definition nearest_integer (negative : bool) (m : positive) (e : Z) : Z :=
  let unit := Z.pow 2 (- e) in
  let whole := Z.div (Z.pos m) unit in
  let part := Z.modulo (Z.pos m) unit in
  if negative
  then (if Z.ltb unit (2 * part) then whole + 1 else whole)%Z
  else (if Z.leb unit (2 * part) then whole + 1 else whole)%Z.

(** The float that holds an integer of a given sign and magnitude; a
    magnitude of zero keeps the sign. *)
Definition integral (negative : bool) (n : Z) : float :=
  match n with
  | Zpos p => FloatOps.SF2Prim (SpecFloat.S754_finite negative p 0)
  | _ => if negative then neg_zero else zero
  end.

(** [Math.round]: NaN, the infinities, the zeros and the numbers that
    hold an integer already are returned as they are. *)
Definition Math_round (x : float) : float :=
  match FloatOps.Prim2SF x with
  | SpecFloat.S754_finite negative m e =>
      if Z.leb 0 e then x else integral negative (nearest_integer negative m e)
  | _ => x
  end.

(** [Math.max] of two numbers: NaN when one of them is, and positive
    zero is larger than negative zero. *)
Definition Math_max (a b : float) : float :=
  if is_nan a || is_nan b then nan
  else if a <? b then b
  else if b <? a then a
  else if get_sign a then b else a.

Definition deliveryFeePerKm : float := 2.
Definition restaurantLat : float := 15.3694.
Definition restaurantLng : float := 44.1910.

(** The fee shown before a location is chosen. *)
Definition default_fee : float := 5.

(** [Math.max(3, Math.round(distance * deliveryFeePerKm))] *)
Definition fee_of_distance (distance : float) : float :=
  Math_max 3 (Math_round (distance * deliveryFeePerKm)).

Record LocationData := mkLocationData {
  lat : float;
  lng : float;
  address : string
}.

Section Distance.

Variable Math_sin : float → float.
Variable Math_cos : float → float.
Variable Math_atan2 : float → float → float.

(** The value of [a] in [calculateDistance]. *)
Definition haversine_term (lat1 lng1 lat2 lng2 : float) : float :=
  let dLat := (lat2 - lat1) * Math_PI / 180 in
  let dLng := (lng2 - lng1) * Math_PI / 180 in
  Math_sin (dLat / 2) * Math_sin (dLat / 2) +
  Math_cos (lat1 * Math_PI / 180) * Math_cos (lat2 * Math_PI / 180) *
  Math_sin (dLng / 2) * Math_sin (dLng / 2).

Definition calculateDistance (lat1 lng1 lat2 lng2 : float) : float :=
  let earth_radius := 6371 in
  let a := haversine_term lat1 lng1 lat2 lng2 in
  let c := 2 * Math_atan2 (sqrt a) (sqrt (1 - a)) in
  earth_radius * c.

(** [handleLocationSelect]: the new value of the [calculatedDeliveryFee]
    state, given its current value and the number of items in the cart. *)
Definition handleLocationSelect (items_length : nat) (location : LocationData)
    (calculatedDeliveryFee : float) : float :=
  if Nat.ltb 0 items_length then
    let distance := calculateDistance restaurantLat restaurantLng
                      (lat location) (lng location) in
    fee_of_distance distance
  else calculatedDeliveryFee.

(** The effect that recomputes the fee when the chosen location or the
    number of items changes. *)
Definition recalculate_fee (items_length : nat) (locationData : option LocationData)
    (calculatedDeliveryFee : float) : float :=
  match locationData with
  | Some location =>
      if Nat.ltb 0 items_length then
        let distance := calculateDistance restaurantLat restaurantLng
                          (lat location) (lng location) in
        fee_of_distance distance
      else calculatedDeliveryFee
  | None => calculatedDeliveryFee
  end.

End Distance.

End CartFee.

(** ** The checkout page: placing the order (Cart.tsx, lines 149-188) *)

Module CartCheckout.
Import OrdersRoute.

Record OrderForm := mkOrderForm {
  f_customerName : string;
  f_customerPhone : string;
  f_customerEmail : string;
  f_deliveryAddress : string;
  f_notes : string;
  f_paymentMethod : string
}.

Record CartItem := mkCartItem {
  item_id : string;
  item_name : string;
  item_price : PrimFloat.float;
  item_quantity : Z;
  item_restaurantId : option string
}.

(** [items[0]?.restaurantId || ''] *)
Definition first_restaurantId (items : list CartItem) : string :=
  match items with
  | item :: _ => default "" (Js.or_else (item_restaurantId item) (Some ""))
  | [] => ""
  end.

Section Checkout.

(** [Number.prototype.toString] and [JSON.stringify] are the language's
    own; [validateForm] checks the text fields against regular
    expressions and returns the list of errors. The total does not depend
    on how any of them is computed. *)
Variable number_toString : PrimFloat.float → string.
Variable JSON_stringify : list CartItem → string.
Variable validateForm : OrderForm → list (string * string).

(** [handlePlaceOrder]: the order data handed to the mutation that posts
    it, or nothing when the handler returns after a toast. [subtotal]
    comes from the cart state and [calculatedDeliveryFee] from the page
    state. *)
Definition handlePlaceOrder (now : Z) (form : OrderForm) (items : list CartItem)
    (subtotal calculatedDeliveryFee : PrimFloat.float) : option OrderData :=
  let errors := validateForm form in
  if Nat.ltb 0 (length errors) then None
  else if Nat.eqb (length items) 0 then None
  else
    let finalTotal := PrimFloat.add subtotal calculatedDeliveryFee in
    Some (mkOrderData
            (Some (f_customerName form))
            (Some (f_customerPhone form))
            (Some (f_deliveryAddress form))
            (Some (JSON_stringify items))
            (Some (number_toString subtotal))
            (Some (number_toString calculatedDeliveryFee))
            (Some (number_toString finalTotal))
            (Some (number_toString finalTotal))
            (Some "pending")
            (Some ("ORD" +:+ pretty now))
            None
            (Some (first_restaurantId items))
            None).

End Checkout.

End CartCheckout.

(** * Vocabulary of the properties *)

Import Storage OrdersRoute.

(** Two runs of a handler agree on what the client sees and on the
    persisted orders and drivers. *)
Definition same_result (a b : Store * Response) : Prop :=
  a.2 = b.2 ∧ orders a.1 = orders b.1 ∧ drivers a.1 = drivers b.1.

(** A store with one unassigned order and two available drivers, and the
    schedule in which two assignment requests take their steps in turn. *)
Definition sample_order : Order :=
  mkOrder "o1" "ORD1" "Amal" "770000000" "Hadda street, Sanaa" "[]"
    "50" "5" "55" "55" "confirmed" None None None 0 0.

Definition sample_store : Store :=
  mkStore {[ "o1" := sample_order ]}
    (<[ "d1" := mkDriver "d1" "Ali" "771111111" true None ]>
       {[ "d2" := mkDriver "d2" "Omar" "772222222" true None ]})
    [].

Definition in_turn : list bool :=
  [false; true; false; true; false; true; false; true; false; true].

(** The body [{ status: s }] of a status update. *)
Definition status_update (s : string) : OrderPatch :=
  mkOrderPatch None None None None None None None None None None (Some s)
    None None None None None.


(** The statuses that have an entry in the update handler's table. *)
Definition has_status_message (s : string) : Prop :=
  s ∈ (statusMessages.*1).

(** An order is stored when some identifier maps to it. *)
Definition stored (st : Store) (o : Order) : Prop :=
  ∃ oid, orders st !! oid = Some o.

(** The claim's reading of a query: every filter the request provides
    must hold of the order. *)
Definition satisfies_provided (q : OrderQuery) (o : Order) : Prop :=
  (∀ s, q_status q = Some s → status o = s) ∧
  (∀ d, q_driverId q = Some d → driverId o = Some d) ∧
  (∀ r, q_restaurantId q = Some r → restaurantId o = Some r) ∧
  (∀ c, q_customerId q = Some c → customerId o = Some c).

(** The code's reading: a filter counts when its value is not empty,
    and the status value [all] asks for every status. *)
Definition satisfies_filters (q : OrderQuery) (o : Order) : Prop :=
  (∀ s, q_status q = Some s → s ≠ "" → s ≠ "all" → status o = s) ∧
  (∀ d, q_driverId q = Some d → d ≠ "" → driverId o = Some d) ∧
  (∀ r, q_restaurantId q = Some r → r ≠ "" → restaurantId o = Some r) ∧
  (∀ c, q_customerId q = Some c → c ≠ "" → customerId o = Some c).

(** Newest first: every order is at least as recent as all that follow. *)
Definition newest_first_sorted (l : list Order) : Prop :=
  StronglySorted (λ a b, createdAt b ≤ createdAt a) l.


(** The four amounts of an order. *)
Definition amounts (o : Order) : string * string * string * string :=
  (subtotal o, deliveryFee o, total o, totalAmount o).

(** A patch that gives none of the four amounts. *)
Definition leaves_amounts (p : OrderPatch) : Prop :=
  p_subtotal p = None ∧ p_deliveryFee p = None ∧
  p_total p = None ∧ p_totalAmount p = None.

(** A cart of one item and a filled form, with the spec's scenario of a
    subtotal of 50 and a delivery fee of 5. [whole_number_toString]
    prints a float that holds a whole number the way JavaScript does. *)
Module CheckoutSample.
Import PrimFloat.

Definition whole_number_toString (x : float) : string :=
  match FloatOps.Prim2SF x with
  | SpecFloat.S754_zero _ => "0"
  | SpecFloat.S754_infinity false => "Infinity"
  | SpecFloat.S754_infinity true => "-Infinity"
  | SpecFloat.S754_nan => "NaN"
  | SpecFloat.S754_finite sign m e =>
      (if sign then "-" else "") +:+ pretty (Z.shiftl (Z.pos m) e)
  end.

Definition fifty : float := 50%float.
Definition five : float := 5%float.

Definition form : CartCheckout.OrderForm :=
  CartCheckout.mkOrderForm "Amal" "770000000" "" "Hadda street, Sanaa" "" "cash".

Definition cart : list CartCheckout.CartItem :=
  [ CartCheckout.mkCartItem "m1" "Mandi" 25%float 2 (Some "r1") ].

Definition stringify (l : list CartCheckout.CartItem) : string :=
  "[" +:+ pretty (length l) +:+ " items]".

Definition no_errors (f : CartCheckout.OrderForm) : list (string * string) := [].

End CheckoutSample.

(** An integer of a given sign and magnitude. *)
Definition signed (negative : bool) (n : Z) : Z := if negative then - n else n.

(** Two customer locations, the restaurant's own point and a point close
    to the one opposite it on the globe, with the results of [Math.sin],
    [Math.cos] and [Math.atan2] that their fees depend on: the results
    the language fixes (the sine of a zero is that zero, the arc tangent
    of positive zero over one is positive zero, and a NaN argument gives
    NaN), and at the four arguments the two locations reach the binary64
    numbers nearest to the sine and to the cosine. The tables say nothing
    of any other argument, where they give NaN. *)
Module FeeSample.
Import PrimFloat.
Local Open Scope float_scope.

Definition restaurant : CartFee.LocationData :=
  CartFee.mkLocationData 15.3694 44.1910 "".

Definition near_antipode : CartFee.LocationData :=
  CartFee.mkLocationData (-15.36939997) (-135.809001207) "".

Definition sine (x : float) : float :=
  if x =? 0 then x
  else if x =? -0.26824663379421715 then -0.26504118422967543
  else if x =? -1.5707963373279585 then -1
  else nan.

Definition cosine (x : float) : float :=
  if x =? 0.26824663405601645 then 0.9642370924872777
  else if x =? -0.2682466335324177 then 0.9642370926260531
  else nan.

Definition arctangent2 (y x : float) : float :=
  if is_nan y || is_nan x then nan
  else if (y =? 0) && negb (get_sign y) && (x =? 1) then 0
  else nan.

End FeeSample.

(** * Callers of the order router *)

(** ** Identifiers in URLs

    The dashboard builds the URLs of its requests by string
    interpolation, with no encoding. A URL carries an identifier as it
    is when each of its characters is unreserved: a digit (codes 48 to
    57), a letter (65 to 90 and 97 to 122), a hyphen (45), a dot (46), an
    underscore (95) or a tilde (126). As a path segment the
    identifier must also not be empty and not a dot segment, which the URL
    parser removes from a path. With any other identifier the request
    may reach the server changed, or reach another route; the model says
    nothing of what comes back then. *)

Module Url.

Definition unreserved (c : Ascii.ascii) : bool :=
  let n := Ascii.nat_of_ascii c in
  ((48 <=? n) && (n <=? 57)
   || (65 <=? n) && (n <=? 90)
   || (97 <=? n) && (n <=? 122)
   || bool_decide (n ∈ [45; 46; 95; 126]))%nat.

Fixpoint all_unreserved (s : string) : bool :=
  match s with
  | EmptyString => true
  | String c rest => unreserved c && all_unreserved rest
  end.

(** An identifier that a query string carries unchanged as a value. *)
Definition query_safe (s : string) : bool := all_unreserved s.

(** An identifier that a path carries unchanged as one segment. *)
Definition segment_safe (s : string) : bool :=
  all_unreserved s && negb (bool_decide (s ∈ [""; "."; ".."])).

End Url.

(** ** The driver dashboard (DriverDashboard component) *)

Module DriverDashboard.

(** The query function of the available orders (lines 72-85): the
    confirmed orders of [GET /api/orders?status=confirmed] that have no
    driver; anything but an array counts as no orders. *)
Definition fetch_availableOrders (st : Store) : list Order :=
  match body (list_orders st (mkOrderQuery (Some "confirmed") None None None)) with
  | BOrders data => List.filter (λ order, negb (Js.truthy (driverId order))) data
  | _ => []
  end.

Section Requests.

(** The driver's id goes into a query string and an order's id into a
    path, both as they are. With an identifier that is not safe there
    the request has another URL, and what comes back depends on the URL
    parser, on the framework's query parser and on the routes beside the
    order router, none of which is among the sources:
    [orders_elsewhere st id] is what the own-orders query function then
    returns, and [put_elsewhere now notify_ok st url value] is the effect
    and the answer of a PUT to that URL whose body gives [value]. The
    same parameter stands for a status update whose [status] is not a
    string, which the order model here does not hold. *)
Variable orders_elsewhere : Store → string → list Order.
Variable put_elsewhere : Z → bool → Store → string → Js.value → Store * Response.

(** The query function of the driver's own orders (lines 91-105):
    [GET /api/orders?driverId=${currentDriver.id}], or no orders without
    a driver id. *)
Definition fetch_myOrders (currentDriver : option Driver) (st : Store) : list Order :=
  match currentDriver with
  | Some driver =>
      if Js.truthy_string (driver_id driver) then
        if Url.query_safe (driver_id driver) then
          match body (list_orders st
                        (mkOrderQuery None (Some (driver_id driver)) None None)) with
          | BOrders data => data
          | _ => []
          end
        else orders_elsewhere st (driver_id driver)
      else []
  | None => []
  end.

(** The accept mutation (lines 126-135): it throws before any request
    when there is no driver id ([None]), and otherwise puts
    [{ driverId: currentDriver.id }] to
    [/api/orders/${orderId}/assign-driver]. *)
Definition acceptOrder (now : Z) (notify_ok : bool) (currentDriver : option Driver)
    (st : Store) (orderId : string) : option (Store * Response) :=
  match currentDriver with
  | Some driver =>
      if Js.truthy_string (driver_id driver) then
        Some (if Url.segment_safe orderId
              then assign_driver now notify_ok st orderId (Some (driver_id driver))
              else put_elsewhere now notify_ok st
                     ("/api/orders/" +:+ orderId +:+ "/assign-driver")
                     (Js.VString (driver_id driver)))
      else None
  | None => None
  end.

(** The status mutation (lines 164-173): a PUT to [/api/orders/${orderId}]
    with the body [{ status, updatedBy, updatedByType }]. [updatedBy] and
    [updatedByType] are no fields of an order. *)
Definition updateOrderStatus (now : Z) (notify_ok : bool) (st : Store)
    (orderId : string) (new_status : Js.value) : Store * Response :=
  match new_status with
  | Js.VString s =>
      if Url.segment_safe orderId
      then put_order now notify_ok st orderId (status_update s)
      else put_elsewhere now notify_ok st ("/api/orders/" +:+ orderId) new_status
  | Js.VInherited _ =>
      put_elsewhere now notify_ok st ("/api/orders/" +:+ orderId) new_status
  end.

End Requests.

(** [getNextStatus] (lines 298-307): a property read on an object
    literal, with no fallback. *)
Definition statusFlow : list (string * string) :=
  [ ("confirmed", "preparing");
    ("preparing", "ready");
    ("ready", "picked_up");
    ("picked_up", "on_way");
    ("on_way", "delivered") ].

Definition getNextStatus (currentStatus : string) : option Js.value :=
  Js.get statusFlow currentStatus.

(** The [type] of an order card: the tab that renders it. *)
Inductive CardType : Type :=
| CardAvailable
| CardAccepted
| CardInProgress
| CardCompleted.

(** The status button of an order card (lines 493-527): only a card of
    the accepted or of the in-progress tab has one, when
    [getNextStatus(order.status || '')] is truthy; a click sends that
    value as the new status. [None] is a card without the button. *)
Definition status_button (type : CardType) (order : Order) : option Js.value :=
  match type with
  | CardAccepted | CardInProgress =>
      match getNextStatus (status order) with
      | Some v => if Js.truthy_value v then Some v else None
      | None => None
      end
  | CardAvailable | CardCompleted => None
  end.

(** A click on the status button of a card, made while no status update
    is in flight (the button is disabled while one is): the request it
    sends for the card's order, or nothing for a card without the
    button. *)
Definition click_status_button
    (put_elsewhere : Z → bool → Store → string → Js.value → Store * Response)
    (now : Z) (notify_ok : bool) (st : Store) (type : CardType) (order : Order)
  : option (Store * Response) :=
  match status_button type order with
  | Some v => Some (updateOrderStatus put_elsewhere now notify_ok st (id order) v)
  | None => None
  end.

Section Filter.

(** The search of [filterOrders] lower-cases the term and the order's
    fields and looks for the term in them; case mapping and substring
    search are the language's own. *)
Variable search_matches : string → Order → bool.

(** [filterOrders] (lines 358-378), for the search term and the status
    filter the dashboard holds. *)
Definition filterOrders (searchTerm statusFilter : string) (orders : list Order)
  : list Order :=
  let filtered :=
    if Js.truthy_string searchTerm
    then List.filter (search_matches searchTerm) orders
    else orders in
  if negb (bool_decide (statusFilter = "all"))
  then List.filter (λ order, bool_decide (status order = statusFilter)) filtered
  else filtered.

End Filter.

Record Categories := mkCategories {
  available : list Order;
  accepted : list Order;
  inProgress : list Order;
  completed : list Order
}.

Section Categorize.

(** [order.driverId === currentDriver?.id] with no current driver
    compares with [undefined]; whether an order without a driver reads
    [undefined] or [null] depends on the JSON the server sends, so that
    reading is a parameter. *)
Variable driverId_is_undefined : Order → bool.

Definition is_mine (currentDriver : option Driver) (order : Order) : bool :=
  match currentDriver with
  | Some driver => Js.strict_eq (driverId order) (driver_id driver)
  | None => driverId_is_undefined order
  end.

(** [categorizeOrders] (lines 381-399). *)
Definition categorizeOrders (currentDriver : option Driver) (orders : list Order)
  : Categories :=
  mkCategories
    (List.filter (λ order,
       bool_decide (status order = "confirmed") && negb (Js.truthy (driverId order)))
       orders)
    (List.filter (λ order,
       is_mine currentDriver order
       && bool_decide (status order ∈ ["preparing"; "ready"]))
       orders)
    (List.filter (λ order,
       is_mine currentDriver order
       && bool_decide (status order ∈ ["picked_up"; "on_way"]))
       orders)
    (List.filter (λ order,
       is_mine currentDriver order && bool_decide (status order = "delivered"))
       orders).

End Categorize.

(** The orders of the tab that renders the cards of a type (lines
    758, 790, 822 and 848: each tab maps [filterOrders] of its category to
    cards of its type). *)
Definition tab_orders (tabs : Categories) (type : CardType) : list Order :=
  match type with
  | CardAvailable => available tabs
  | CardAccepted => accepted tabs
  | CardInProgress => inProgress tabs
  | CardCompleted => completed tabs
  end.

(** [Math.max(...values)]; [None] is the [-Infinity] of no values. *)
Fixpoint Math_max (values : list Z) : option Z :=
  match values with
  | [] => None
  | x :: rest =>
      match Math_max rest with
      | None => Some x
      | Some m => Some (Z.max x m)
      end
  end.

(** The effect that announces new orders (lines 229-253): the new value
    of [lastNotificationTime] and whether the toast is shown. *)
Definition announce_new_orders (availableOrders : list Order) (driverStatus : string)
    (lastNotificationTime : Z) : Z * bool :=
  if Nat.ltb 0 (length availableOrders) && bool_decide (driverStatus = "available") then
    match Math_max (createdAt <$> availableOrders) with
    | Some latestOrderTime =>
        if Z.ltb lastNotificationTime latestOrderTime
        then (latestOrderTime, true)
        else (lastNotificationTime, false)
    | None => (lastNotificationTime, false)
    end
  else (lastNotificationTime, false).

End DriverDashboard.

(** ** The customer's order list (OrdersPage component) *)

Module OrdersPage.

Inductive Tab : Type :=
| TabAll
| TabActive
| TabCompleted
| TabCancelled.

(** The predicate of [filteredOrders] (lines 141-147). *)
Definition tab_shows (selectedTab : Tab) (order : Order) : bool :=
  match selectedTab with
  | TabAll => true
  | TabActive =>
      bool_decide (status order ∈ ["pending"; "confirmed"; "preparing"; "on_way"])
  | TabCompleted => bool_decide (status order = "delivered")
  | TabCancelled => bool_decide (status order = "cancelled")
  end.

Definition filteredOrders (selectedTab : Tab) (displayOrders : list Order)
  : list Order :=
  List.filter (tab_shows selectedTab) displayOrders.

(** The counter of a tab (lines 161-166). *)
Definition tab_count (tab : Tab) (displayOrders : list Order) : nat :=
  match tab with
  | TabAll => length displayOrders
  | _ => length (List.filter (tab_shows tab) displayOrders)
  end.

End OrdersPage.

(** ** The tracking page (OrderTracking component) *)

Module OrderTrackingPage.

(** Whether the driver panel is rendered (lines 120-126 and 189):
    the order is being prepared or on its way, and has a driver. *)
Definition shows_driver_panel (order : Order) : bool :=
  (bool_decide (status order = "on_way") || bool_decide (status order = "preparing"))
  && Js.truthy (driverId order).

End OrderTrackingPage.

(** ** The checkout form's validation (Cart.tsx, lines 53-80) *)

Module CartForm.
Import CartCheckout.

Section Validate.

(** [String.prototype.trim], the length of a string in UTF-16 code
    units, and the two regular-expression tests (the phone test is taken
    after [replace(/\s/g, '')]) are the language's own. *)
Variable trim : string → string.
Variable js_length : string → nat.
Variable name_pattern_test : string → bool.
Variable phone_pattern_test : string → bool.

Definition name_errors (form : OrderForm) : list (string * string) :=
  if negb (Js.truthy_string (trim (f_customerName form))) then
    [("customerName", "الاسم مطلوب")]
  else if Nat.ltb (js_length (trim (f_customerName form))) 2 then
    [("customerName", "الاسم يجب أن يكون على الأقل حرفين")]
  else if negb (name_pattern_test (f_customerName form)) then
    [("customerName", "الاسم يجب أن يحتوي على أحرف فقط")]
  else [].

Definition phone_errors (form : OrderForm) : list (string * string) :=
  if negb (Js.truthy_string (trim (f_customerPhone form))) then
    [("customerPhone", "رقم الهاتف مطلوب")]
  else if negb (phone_pattern_test (f_customerPhone form)) then
    [("customerPhone", "رقم الهاتف غير صحيح. مثال: 773123456 أو 00967773123456")]
  else [].

Definition address_errors (form : OrderForm) : list (string * string) :=
  if negb (Js.truthy_string (trim (f_deliveryAddress form))) then
    [("deliveryAddress", "عنوان التوصيل مطلوب")]
  else if Nat.ltb (js_length (trim (f_deliveryAddress form))) 10 then
    [("deliveryAddress", "يرجى كتابة عنوان مفصل أكثر (على الأقل 10 أحرف)")]
  else [].

(** The [errors] object, as its entries in the order they are set. *)
Definition validateForm (form : OrderForm) : list (string * string) :=
  name_errors form ++ phone_errors form ++ address_errors form.

End Validate.

End CartForm.

(** Each order is stored under its own identifier. *)
Definition store_wf (st : Store) : Prop :=
  ∀ oid o, orders st !! oid = Some o → id o = oid.

(** The identity of an order: its identifier, its order number and its
    creation time. *)
Definition identity_of (o : Order) : string * string * Z :=
  (id o, orderNumber o, createdAt o).

(** The customer's details of an order. *)
Definition customer_of (o : Order) : string * string * string * option string :=
  (customerName o, customerPhone o, deliveryAddress o, customerId o).


Section Presses.

(** The parameters of the dashboard: its requests outside the model and
    its reading of an order without a driver when there is no current
    driver (see [DriverDashboard]). *)
Variable orders_elsewhere : Store → string → list Order.
Variable put_elsewhere : Z → bool → Store → string → Js.value → Store * Response.
Variable driverId_is_undefined : Order → bool.



End Presses.

(** * Properties *)

(** ** Tracking synthesis *)

Lemma findIndex_none {A} (test : A → bool) (l : list A) :
  (∀ x, x ∈ l → test x = false) → Js.findIndex test l = -1.
Proof.
  induction l as [|x l IH]; intros Hall; simpl; [done|].
  rewrite (Hall x) by set_solver.
  rewrite IH by (intros y Hy; apply Hall; set_solver).
  by rewrite bool_decide_eq_true_2.
Qed.

Lemma findIndex_first {A} (test : A → bool) (l : list A) (k : nat) (x : A) :
  l !! k = Some x → test x = true →
  (∀ j y, (j < k)%nat → l !! j = Some y → test y = false) →
  Js.findIndex test l = Z.of_nat k.
Proof.
  revert k. induction l as [|a l IH]; intros k Hk Hx Hbefore; [done|].
  destruct k as [|k]; simpl in *.
  - injection Hk as ->. by rewrite Hx.
  - rewrite (Hbefore 0%nat a) by (done || lia).
    rewrite (IH k Hk Hx).
    + rewrite bool_decide_eq_false_2 by lia. lia.
    + intros j y Hj Hy. apply (Hbefore (S j) y); [lia | done].
Qed.

(** The loop started at index [i] with [n] entries left to push. *)
Lemma tracking_loop_run (n : nat) :
  ∀ (fuel i : nat) (baseTime idx : Z) (acc : list TrackingStep),
    Z.of_nat i + Z.of_nat n = idx + 1 →
    (i + n ≤ length statusSteps)%nat →
    (n ≤ fuel)%nat →
    tracking_loop fuel baseTime (Z.of_nat i) idx acc =
    Some (acc ++ imap (λ j step, tracking_entry baseTime (Z.of_nat (i + j)) step)
                   (take n (drop i statusSteps))).
Proof.
  induction n as [|n IH]; intros fuel i baseTime idx acc Hidx Hlen Hfuel.
  - destruct fuel; simpl; rewrite (proj2 (Z.leb_gt _ _)) by lia;
      by rewrite app_nil_r.
  - destruct fuel as [|fuel]; [lia|]. simpl.
    rewrite (proj2 (Z.leb_le _ _)) by lia.
    rewrite Nat2Z.id.
    destruct (lookup_lt_is_Some_2 statusSteps i) as [step Hstep]; [lia|].
    rewrite Hstep.
    replace (Z.of_nat i + 1) with (Z.of_nat (S i)) by lia.
    rewrite (IH fuel (S i) baseTime idx) by lia.
    f_equal. rewrite <-app_assoc. f_equal.
    rewrite (drop_S _ _ _ Hstep). simpl.
    rewrite Nat.add_0_r. f_equal.
    apply imap_ext. intros j y _. simpl. do 2 f_equal. lia.
Qed.

Lemma currentStatusIndex_range (order : Order) :
  -1 ≤ currentStatusIndex order < Z.of_nat (length statusSteps).
Proof.
  unfold currentStatusIndex. simpl.
  repeat (case_bool_decide; simpl; [lia|]). lia.
Qed.

Lemma build_tracking_eq (order : Order) :
  build_tracking order =
  Some (imap (λ j step, tracking_entry (createdAt order) (Z.of_nat j) step)
          (take (Z.to_nat (currentStatusIndex order + 1)) statusSteps)).
Proof.
  unfold build_tracking.
  pose proof (currentStatusIndex_range order) as Hr.
  pose proof (tracking_loop_run (Z.to_nat (currentStatusIndex order + 1))
                (S (length statusSteps)) 0 (createdAt order)
                (currentStatusIndex order) []) as Hrun.
  change (Z.of_nat 0) with 0 in Hrun.
  rewrite Hrun; [done | lia | lia | lia].
Qed.

Lemma statusSteps_status_inj (i j : nat) (si sj : StatusStep) :
  statusSteps !! i = Some si → statusSteps !! j = Some sj →
  s_status si = s_status sj → i = j.
Proof.
  intros Hi Hj Heq.
  do 7 (destruct i as [|i]; [do 7 (destruct j as [|j]; [by simplify_eq/=|]); by simplify_eq/=|]).
  by simplify_eq/=.
Qed.

(** C4. The timeline of the tracking view: the fixed table is the one the
    specification lists; the synthesis always returns a timeline, which
    the handler sends with status 200 for a stored order; when
    the order's status stands at position [k] of the table, the timeline
    has exactly the [k + 1] entries of positions [0..k], in order, each
    with its table status and the creation time plus its offset in
    minutes, so every status occurs once; when the status is not in the
    table (such as cancelled) the timeline is empty. *)
Theorem tracking_timeline (order : Order) :
  (λ step, (s_status step, s_offset step)) <$> statusSteps =
    [ ("pending", 0); ("confirmed", 5); ("preparing", 10); ("ready", 20);
      ("picked_up", 25); ("on_way", 30); ("delivered", 45) ] ∧
  ∃ tracking,
    build_tracking order = Some tracking ∧
    (∀ st oid, getOrder st oid = Some order →
       track_order st oid = json 200 (BTrack order tracking (driver_info st order))) ∧
    NoDup (t_status <$> tracking) ∧
    (∀ k step,
        statusSteps !! k = Some step → s_status step = status order →
        length tracking = S k ∧
        ∀ i si, (i ≤ k)%nat → statusSteps !! i = Some si →
          ∃ entry, tracking !! i = Some entry ∧
                   t_status entry = s_status si ∧
                   t_message entry = s_message si ∧
                   t_timestamp entry = createdAt order + s_offset si * 60000) ∧
    ((∀ step, step ∈ statusSteps → s_status step ≠ status order) →
     tracking = []) ∧
    (status order = "cancelled" → tracking = []).
Proof.
  split; [reflexivity|].
  eexists. split; [apply build_tracking_eq|].
  set (test := λ step : StatusStep, bool_decide (s_status step = status order)).
  assert (Hnone : (∀ step, step ∈ statusSteps → s_status step ≠ status order) →
                  imap (λ j step, tracking_entry (createdAt order) (Z.of_nat j) step)
                    (take (Z.to_nat (currentStatusIndex order + 1)) statusSteps) = []).
  { intros Hno. unfold currentStatusIndex.
    rewrite findIndex_none; [done|].
    intros x Hx. apply bool_decide_eq_false_2. by apply Hno. }
  split; [|split; [|split; [|split]]].
  - intros st oid Hstored. unfold track_order.
    by rewrite Hstored, build_tracking_eq.
  - pose proof (currentStatusIndex_range order) as Hr.
    remember (Z.to_nat (currentStatusIndex order + 1)) as n eqn:Hn.
    assert (n ≤ 7)%nat as Hle by (simpl in Hr; lia).
    clear -Hle.
    do 8 (destruct n as [|n]; [apply (bool_decide_unpack _); vm_compute; exact I|]).
    lia.
  - intros k step Hk Hstatus.
    assert (currentStatusIndex order = Z.of_nat k) as ->.
    { unfold currentStatusIndex.
      apply (findIndex_first _ _ k step Hk); [by apply bool_decide_eq_true_2|].
      intros j y Hj Hy. apply bool_decide_eq_false_2. intros Heq.
      assert (j = k) by (eapply statusSteps_status_inj; eauto; congruence). lia. }
    replace (Z.to_nat (Z.of_nat k + 1)) with (S k) by lia.
    pose proof (lookup_lt_Some _ _ _ Hk) as Hlt.
    split.
    + rewrite length_imap, length_take. lia.
    + intros i si Hi Hsi. eexists. split.
      * rewrite list_lookup_imap, lookup_take_lt by lia. rewrite Hsi. reflexivity.
      * done.
  - exact Hnone.
  - intros Hc. apply Hnone. intros step Hin Heq. rewrite Hc in Heq.
    revert Hin Heq. unfold statusSteps. rewrite !elem_of_cons, elem_of_nil.
    intros Hin Heq. destruct_or!; subst; try discriminate; done.
Qed.

(** ** Driver assignment *)

Lemma truthy_Some (d : string) : d ≠ "" → Js.truthy (Some d) = true.
Proof.
  intros Hd. unfold Js.truthy, Js.truthy_string.
  by rewrite bool_decide_eq_false_2.
Qed.

Lemma truthy_inv (v : option string) :
  Js.truthy v = true → ∃ d, v = Some d ∧ d ≠ "".
Proof.
  destruct v as [d|]; [|done]. unfold Js.truthy, Js.truthy_string.
  case_bool_decide; [done|]. eauto.
Qed.

Lemma updateOrder_found (st : Store) (oid : string) (p : OrderPatch) (o : Order) :
  getOrder st oid = Some o →
  updateOrder st oid p =
    (set_orders st (<[oid := apply_patch o p]> (orders st)), Some (apply_patch o p)).
Proof. unfold getOrder, updateOrder. by intros ->. Qed.

Lemma updateDriver_found (st : Store) (did : string) (b : bool) (d : Driver) :
  getDriver st did = Some d →
  updateDriver st did b =
    (set_drivers st (<[did := set_available d b]> (drivers st)),
     Some (set_available d b)).
Proof. unfold getDriver, updateDriver. by intros ->. Qed.

Lemma try_notify_orders (ok : bool) (st : Store) (n : Notification) :
  orders (try_notify ok st n) = orders st.
Proof. by destruct ok. Qed.

Lemma try_notify_drivers (ok : bool) (st : Store) (n : Notification) :
  drivers (try_notify ok st n) = drivers st.
Proof. by destruct ok. Qed.

(** The store and the answer of an assignment that passes every check. *)
Lemma assign_driver_run (now : Z) (notify_ok : bool) (st : Store)
    (oid d : string) (order : Order) (driver : Driver) :
  d ≠ "" →
  getOrder st oid = Some order →
  Js.truthy (driverId order) = false →
  getDriver st d = Some driver →
  assign_driver now notify_ok st oid (Some d) =
    (try_notify notify_ok
       (set_drivers
          (set_orders st (<[oid := apply_patch order (assign_patch d now)]> (orders st)))
          (<[d := set_available driver false]> (drivers st)))
       (order_assigned_notification oid order driver),
     json 200 (BAssigned (apply_patch order (assign_patch d now)))).
Proof.
  intros Hd Horder Hfree Hdriver.
  unfold assign_driver.
  rewrite (truthy_Some d Hd). change (default "" (Some d)) with d. cbn [negb].
  rewrite Horder, Hfree, Hdriver.
  rewrite (updateOrder_found _ _ _ _ Horder).
  set (st1 := set_orders st _).
  assert (getDriver st1 d = Some driver) as Hdriver1 by done.
  by rewrite (updateDriver_found _ _ _ _ Hdriver1).
Qed.

(** A request for an order that already has a driver is refused. *)
Lemma assign_driver_conflict (now : Z) (notify_ok : bool) (st : Store)
    (oid d : string) (order : Order) :
  d ≠ "" →
  getOrder st oid = Some order →
  Js.truthy (driverId order) = true →
  assign_driver now notify_ok st oid (Some d) = (st, resp_already_assigned).
Proof.
  intros Hd Horder Htaken. unfold assign_driver.
  by rewrite (truthy_Some d Hd), Horder, Htaken.
Qed.

(** C1. A request naming driver [d] for an order that exists and has no
    driver, where driver [d] exists, is answered 200 with the updated
    order; afterwards the stored order has [driverId = d] and status
    preparing whatever its status was, and the stored driver is not
    available. *)
Theorem assign_driver_success (now : Z) (notify_ok : bool) (st : Store)
    (oid d : string) (order : Order) (driver : Driver) :
  d ≠ "" →
  getOrder st oid = Some order →
  Js.truthy (driverId order) = false →
  getDriver st d = Some driver →
  ∃ st' updated driver',
    assign_driver now notify_ok st oid (Some d) = (st', json 200 (BAssigned updated)) ∧
    getOrder st' oid = Some updated ∧
    driverId updated = Some d ∧
    status updated = "preparing" ∧
    getDriver st' d = Some driver' ∧
    isAvailable driver' = false.
Proof.
  intros Hd Horder Hfree Hdriver.
  rewrite (assign_driver_run now notify_ok st oid d order driver) by done.
  eexists _, _, (set_available driver false).
  split; [reflexivity|].
  unfold getOrder, getDriver.
  rewrite try_notify_orders, try_notify_drivers. cbn [orders drivers set_drivers set_orders].
  rewrite !lookup_insert_eq.
  repeat split; reflexivity.
Qed.

Lemma assign_driver_success_witness :
  ∃ st' updated driver',
    assign_driver 7 true
      (mkStore {[ "o1" := mkOrder "o1" "ORD1" "A" "770000000" "addr" "[]"
                            "50" "5" "55" "55" "confirmed" None None None 0 0 ]}
               {[ "d1" := mkDriver "d1" "Ali" "771111111" true None ]} [])
      "o1" (Some "d1") = (st', json 200 (BAssigned updated)) ∧
    getOrder st' "o1" = Some updated ∧
    driverId updated = Some "d1" ∧
    status updated = "preparing" ∧
    getDriver st' "d1" = Some driver' ∧
    isAvailable driver' = false.
Proof.
  apply (assign_driver_success 7 true _ "o1" "d1"
           (mkOrder "o1" "ORD1" "A" "770000000" "addr" "[]"
              "50" "5" "55" "55" "confirmed" None None None 0 0)
           (mkDriver "d1" "Ali" "771111111" true None));
    [discriminate | reflexivity | reflexivity | reflexivity].
Defined.

Lemma assign_driver_failure_keeps_store (now : Z) (notify_ok : bool) (st : Store)
    (oid : string) (body_driverId : option string) :
  assign_outcome (assign_driver now notify_ok st oid body_driverId).2 ≠ Success →
  (assign_driver now notify_ok st oid body_driverId).1 = st.
Proof.
  unfold assign_driver.
  destruct (Js.truthy body_driverId); [|done]. cbn [negb].
  destruct (getOrder st oid) as [order|] eqn:Horder; [|done].
  destruct (Js.truthy (driverId order)); [done|].
  destruct (getDriver st _); [|done].
  rewrite (updateOrder_found _ _ _ _ Horder). by intros [].
Qed.

(** C2, as the code has it. A request without a driver id is refused
    first, as a validation error. For a request that carries a driver id
    the checks come in this order: no such order gives NotFound; an order
    that already has a driver gives Conflict; no such driver gives
    NotFound. The three answers differ from one another, and every answer
    other than the success leaves the store, so every order and driver
    record, as it was. *)
Theorem assign_driver_failures (now : Z) (notify_ok : bool) (st : Store)
    (oid : string) (body_driverId : option string) :
  (Js.truthy body_driverId = false →
   assign_driver now notify_ok st oid body_driverId = (st, resp_driverId_required)) ∧
  (Js.truthy body_driverId = true →
   (getOrder st oid = None →
    assign_driver now notify_ok st oid body_driverId = (st, resp_order_not_found)) ∧
   (∀ order, getOrder st oid = Some order → Js.truthy (driverId order) = true →
    assign_driver now notify_ok st oid body_driverId = (st, resp_already_assigned)) ∧
   (∀ order d, getOrder st oid = Some order → Js.truthy (driverId order) = false →
    body_driverId = Some d → getDriver st d = None →
    assign_driver now notify_ok st oid body_driverId = (st, resp_driver_not_found))) ∧
  (assign_outcome (assign_driver now notify_ok st oid body_driverId).2 ≠ Success →
   (assign_driver now notify_ok st oid body_driverId).1 = st) ∧
  assign_outcome resp_driverId_required = ValidationError ∧
  assign_outcome resp_order_not_found = NotFound ∧
  assign_outcome resp_already_assigned = Conflict ∧
  assign_outcome resp_driver_not_found = NotFound ∧
  resp_order_not_found ≠ resp_already_assigned ∧
  resp_order_not_found ≠ resp_driver_not_found ∧
  resp_already_assigned ≠ resp_driver_not_found.
Proof.
  split; [|split; [|split]].
  - intros Hno. unfold assign_driver. by rewrite Hno.
  - intros Hyes. unfold assign_driver. rewrite Hyes. cbn [negb].
    split; [|split].
    + by intros ->.
    + by intros order -> ->.
    + intros order d -> -> ->. change (default "" (Some d)) with d. by intros ->.
  - apply assign_driver_failure_keeps_store.
  - repeat split; try reflexivity; discriminate.
Qed.

Lemma assign_driver_failures_witness :
  assign_driver 7 true sample_store "o9" (Some "d1")
    = (sample_store, resp_order_not_found) ∧
  assign_driver 7 true sample_store "o1" (Some "d9")
    = (sample_store, resp_driver_not_found).
Proof.
  split.
  - destruct (assign_driver_failures 7 true sample_store "o9" (Some "d1"))
      as (_ & Hchecks & _).
    destruct (Hchecks eq_refl) as (Hno_order & _ & _).
    apply Hno_order. reflexivity.
  - destruct (assign_driver_failures 7 true sample_store "o1" (Some "d9"))
      as (_ & Hchecks & _).
    destruct (Hchecks eq_refl) as (_ & _ & Hno_driver).
    apply (Hno_driver sample_order "d9"); reflexivity.
Defined.

(** C2 as stated fails for a request without a driver id: the order does
    not exist, and the answer is the validation error, not NotFound. *)
Lemma assign_driver_missing_id_not_NotFound :
  getOrder sample_store "o9" = None ∧
  (assign_driver 7 true sample_store "o9" None).2 = resp_driverId_required ∧
  assign_outcome (assign_driver 7 true sample_store "o9" None).2 = ValidationError ∧
  assign_outcome (assign_driver 7 true sample_store "o9" None).2 ≠ NotFound.
Proof. repeat split; try reflexivity. discriminate. Qed.

(** The task, stepped to its end with nothing in between, is the handler. *)
Lemma run_alone_assign_driver (now : Z) (notify_ok : bool) (st : Store)
    (oid : string) (body_driverId : option string) :
  run_alone 5 now notify_ok st (AtStart oid body_driverId) =
  ((assign_driver now notify_ok st oid body_driverId).1,
   AtDone (assign_driver now notify_ok st oid body_driverId).2).
Proof.
  unfold assign_driver. cbn [run_alone assign_step].
  destruct (Js.truthy body_driverId); cbn [negb run_alone assign_step]; [|done].
  destruct (getOrder st oid) as [order|]; cbn [run_alone assign_step]; [|done].
  destruct (Js.truthy (driverId order)); cbn [run_alone assign_step]; [done|].
  destruct (getDriver st _); cbn [run_alone assign_step]; [|done].
  destruct (updateOrder st oid _) as [st1 [updated|]];
    cbn [run_alone assign_step]; done.
Qed.

(** One request after the other: once an order has a driver, a later
    request for it is refused as a conflict and changes nothing. *)
Lemma assign_driver_second_is_conflict (now now' : Z) (ok ok' : bool) (st : Store)
    (oid d d' : string) (order : Order) (driver : Driver) :
  d ≠ "" → d' ≠ "" →
  getOrder st oid = Some order →
  Js.truthy (driverId order) = false →
  getDriver st d = Some driver →
  let st1 := (assign_driver now ok st oid (Some d)).1 in
  assign_driver now' ok' st1 oid (Some d') = (st1, resp_already_assigned).
Proof.
  intros Hd Hd' Horder Hfree Hdriver st1. subst st1.
  rewrite (assign_driver_run now ok st oid d order driver) by done. cbn [fst].
  apply (assign_driver_conflict _ _ _ _ _ (apply_patch order (assign_patch d now)) Hd').
  - unfold getOrder. rewrite try_notify_orders. simpl. by rewrite lookup_insert_eq.
  - simpl. by apply truthy_Some.
Qed.

(** Two requests in flight for the same unassigned order, stepping in
    turn: both read the order before either writes it, both are answered
    200, the second write wins, and both drivers are marked unavailable. *)
Lemma assign_driver_race (now : Z) (notify_ok : bool) (st : Store)
    (oid d1 d2 : string) (order : Order) (driver1 driver2 : Driver) :
  d1 ≠ "" → d2 ≠ "" → d1 ≠ d2 →
  getOrder st oid = Some order →
  Js.truthy (driverId order) = false →
  getDriver st d1 = Some driver1 →
  getDriver st d2 = Some driver2 →
  ∃ st' u1 u2,
    run_two in_turn now notify_ok st (AtStart oid (Some d1)) (AtStart oid (Some d2))
      = (st', AtDone (json 200 (BAssigned u1)), AtDone (json 200 (BAssigned u2))) ∧
    driverId u1 = Some d1 ∧ driverId u2 = Some d2 ∧
    driverId <$> getOrder st' oid = Some (Some d2) ∧
    isAvailable <$> getDriver st' d1 = Some false ∧
    isAvailable <$> getDriver st' d2 = Some false.
Proof.
  intros Hd1 Hd2 Hne Horder Hfree Hdrv1 Hdrv2.
  unfold in_turn. cbn [run_two assign_step].
  rewrite !truthy_Some by done. cbn [negb].
  change (default "" (Some d1)) with d1. change (default "" (Some d2)) with d2.
  rewrite Horder. cbn [run_two assign_step]. rewrite Hfree.
  rewrite Hdrv1, Hdrv2. cbn [run_two assign_step].
  rewrite (updateOrder_found _ _ _ _ Horder).
  set (st1 := set_orders st _). cbn [run_two assign_step].
  assert (getOrder st1 oid = Some (apply_patch order (assign_patch d1 now))) as Horder1
    by (unfold getOrder, st1; simpl; by rewrite lookup_insert_eq).
  rewrite (updateOrder_found _ _ _ _ Horder1).
  set (st2 := set_orders st1 _). cbn [run_two assign_step].
  assert (getDriver st2 d1 = Some driver1) as Hdrv1' by done.
  rewrite (updateDriver_found _ _ _ _ Hdrv1'). cbn [fst].
  set (st3 := set_drivers st2 _). cbn [run_two assign_step].
  assert (getDriver st3 d2 = Some driver2) as Hdrv2'
    by (unfold getDriver, st3; simpl; by rewrite lookup_insert_ne).
  rewrite (updateDriver_found _ _ _ _ Hdrv2'). cbn [fst run_two assign_step].
  eexists _, _, _. split; [reflexivity|].
  unfold getOrder, getDriver.
  rewrite !try_notify_orders, !try_notify_drivers. simpl.
  rewrite lookup_insert_eq, lookup_insert_eq.
  rewrite lookup_insert_ne, lookup_insert_eq by done. done.
Qed.

(** C3 on the code: with the sample store, two requests for order [o1],
    one for driver [d1] and one for [d2], stepping in turn, are both
    answered 200; neither is refused as a conflict, the order ends with
    [d2], and both drivers end unavailable. *)
Theorem concurrent_assignments_both_succeed :
  ∃ st' u1 u2,
    run_two in_turn 7 true sample_store
      (AtStart "o1" (Some "d1")) (AtStart "o1" (Some "d2"))
      = (st', AtDone (json 200 (BAssigned u1)), AtDone (json 200 (BAssigned u2))) ∧
    assign_outcome (json 200 (BAssigned u1)) = Success ∧
    assign_outcome (json 200 (BAssigned u2)) = Success ∧
    driverId u1 = Some "d1" ∧ driverId u2 = Some "d2" ∧
    driverId <$> getOrder st' "o1" = Some (Some "d2") ∧
    isAvailable <$> getDriver st' "d1" = Some false ∧
    isAvailable <$> getDriver st' "d2" = Some false.
Proof.
  eexists _, _, _. split; [reflexivity|].
  repeat split; reflexivity.
Qed.

(** ** Notifications are best effort *)

Lemma try_notify_same (ok ok' : bool) (st : Store) (n n' : Notification) (r : Response) :
  same_result (try_notify ok st n, r) (try_notify ok' st n', r).
Proof.
  unfold same_result. simpl.
  by rewrite !try_notify_orders, !try_notify_drivers.
Qed.

(** C10. For order creation, order update and driver assignment alike,
    the answer to the client and the persisted orders and drivers are the
    same whether the notification is created or its creation throws. *)
Theorem notification_failure_changes_nothing
    (schema_accepts : InsertOrder → bool) (now : Z) (rnd : N) (new_id : string)
    (st : Store) (orderData : OrderData) (oid : string) (updateData : OrderPatch)
    (body_driverId : option string) :
  same_result (post_order schema_accepts now rnd new_id true st orderData)
              (post_order schema_accepts now rnd new_id false st orderData) ∧
  same_result (put_order now true st oid updateData)
              (put_order now false st oid updateData) ∧
  same_result (assign_driver now true st oid body_driverId)
              (assign_driver now false st oid body_driverId).
Proof.
  split; [|split].
  - unfold post_order.
    destruct (missing_required orderData); [done|].
    destruct (insertOrderSchema_parse _ _); [|done].
    destruct (createOrder st new_id _). apply try_notify_same.
  - unfold put_order.
    destruct (updateOrder st oid _) as [st1 [updated|]]; [|done].
    destruct (p_status updateData) as [s|]; [|done].
    destruct (Js.truthy_string s); [|done]. apply try_notify_same.
  - unfold assign_driver.
    destruct (negb _); [done|].
    destruct (getOrder st oid) as [order|]; [|done].
    destruct (Js.truthy _); [done|].
    destruct (getDriver st _); [|done].
    destruct (updateOrder st oid _) as [st1 [updated|]]; [|done].
    apply try_notify_same.
Qed.

(** ** Status update *)

Lemma own_property_None (props : list (string * string)) (key : string) :
  key ∉ props.*1 → Js.own_property props key = None.
Proof.
  induction props as [|[k v] props IH]; [done|]. simpl. intros Hnot.
  apply not_elem_of_cons in Hnot as [Hk Hrest].
  rewrite bool_decide_eq_false_2 by congruence. by apply IH.
Qed.

(** A status that has no table entry and is not a name objects inherit
    gets the generic message. *)
Lemma status_message_fallback (s : string) :
  ¬ has_status_message s → s ∉ Js.object_prototype_names →
  status_message s = Js.VString fallback_message.
Proof.
  intros Htable Hproto. unfold status_message, Js.get.
  rewrite own_property_None by done.
  by rewrite bool_decide_eq_false_2.
Qed.

(** An update with a non-empty status the table does not know, that is
    not an inherited property name either: the order is persisted with
    that status, and the customer is sent the generic message. *)
Lemma put_order_unknown_status (now : Z) (st : Store) (oid s : string)
    (order : Order) (updateData : OrderPatch) :
  getOrder st oid = Some order →
  p_status updateData = Some s →
  s ≠ "" → ¬ has_status_message s → s ∉ Js.object_prototype_names →
  ∃ st' updated sent,
    put_order now true st oid updateData = (st', json 200 (BOrder updated)) ∧
    getOrder st' oid = Some updated ∧
    status updated = s ∧
    notifications st' = notifications st ++ [sent] ∧
    n_recipientType sent = "customer" ∧
    n_message sent = Js.VString fallback_message.
Proof.
  intros Horder Hs Hne Htable Hproto. unfold put_order.
  rewrite (updateOrder_found _ _ _ _ Horder), Hs.
  unfold Js.truthy_string. rewrite bool_decide_eq_false_2 by done. cbn [negb].
  eexists _, _, _. split; [reflexivity|].
  unfold getOrder. simpl. rewrite lookup_insert_eq.
  split; [reflexivity|]. split; [by rewrite Hs|].
  split; [reflexivity|]. split; [reflexivity|].
  by apply status_message_fallback.
Qed.

(** C9 on the code: the status [constructor] is not in the table. The
    update is persisted with it, but [statusMessages["constructor"]] is
    the function every object inherits, a truthy value, so the message
    handed to the notification is that function and not the generic
    text. *)
Theorem put_order_inherited_name_no_fallback :
  ¬ has_status_message "constructor" ∧
  ∃ st' updated sent,
    put_order 7 true sample_store "o1" (status_update "constructor")
      = (st', json 200 (BOrder updated)) ∧
    getOrder st' "o1" = Some updated ∧
    status updated = "constructor" ∧
    notifications st' = [sent] ∧
    n_message sent = Js.VInherited "constructor" ∧
    n_message sent ≠ Js.VString fallback_message.
Proof.
  split.
  - unfold has_status_message. simpl. rewrite !elem_of_cons, elem_of_nil.
    intros H. destruct_or!; discriminate || done.
  - eexists _, _, _. split; [reflexivity|].
    repeat split; discriminate.
Qed.

(** ** Listing and filtering *)

Lemma sort_insert_perm {A} (cmp : A → A → Z) (x : A) (l : list A) :
  sort_insert cmp x l ≡ₚ x :: l.
Proof.
  induction l as [|y l IH]; simpl; [done|].
  destruct (Z.leb _ _); [done|]. rewrite IH. apply Permutation_swap.
Qed.

Lemma js_sort_perm {A} (cmp : A → A → Z) (l : list A) : js_sort cmp l ≡ₚ l.
Proof.
  induction l as [|x l IH]; simpl; [done|].
  rewrite sort_insert_perm. by rewrite IH.
Qed.

Lemma sort_insert_newest_first (x : Order) (l : list Order) :
  newest_first_sorted l → newest_first_sorted (sort_insert newest_first x l).
Proof.
  unfold newest_first_sorted, newest_first.
  induction l as [|y l IH]; intros Hsorted; simpl.
  - repeat constructor.
  - apply StronglySorted_inv in Hsorted as [Hl Hy].
    destruct (Z.leb_spec (createdAt y - createdAt x) 0) as [Hle|Hgt].
    + constructor; [by constructor|].
      constructor; [lia|].
      eapply Forall_impl; [exact Hy|]. intros z Hz. simpl in Hz. lia.
    + constructor; [by apply IH|].
      rewrite sort_insert_perm. constructor; [lia | done].
Qed.

Lemma js_sort_newest_first (l : list Order) :
  newest_first_sorted (js_sort newest_first l).
Proof.
  induction l as [|x l IH]; simpl; [constructor|].
  by apply sort_insert_newest_first.
Qed.

Lemma elem_of_filter_if (applies : bool) (keep : Order → bool) (l : list Order)
    (o : Order) :
  o ∈ filter_if applies keep l ↔ o ∈ l ∧ (applies = true → keep o = true).
Proof.
  unfold filter_if. destruct applies.
  - rewrite !list_elem_of_In, filter_In. naive_solver.
  - naive_solver.
Qed.

Lemma elem_of_getOrders (st : Store) (o : Order) : o ∈ getOrders st ↔ stored st o.
Proof.
  unfold getOrders, stored. rewrite list_elem_of_fmap. split.
  - intros [[k o'] [-> Hin]]. exists k. by apply elem_of_map_to_list.
  - intros [k Hk]. exists (k, o). split; [done|]. by apply elem_of_map_to_list.
Qed.

Lemma status_filter_spec (q : OrderQuery) (o : Order) :
  (status_filter_applies q = true → Js.strict_eq (q_status q) (status o) = true) ↔
  (∀ s, q_status q = Some s → s ≠ "" → s ≠ "all" → status o = s).
Proof.
  unfold status_filter_applies, Js.strict_eq, Js.truthy, Js.truthy_string.
  destruct (q_status q) as [s|]; [|naive_solver].
  repeat case_bool_decide; simpl; naive_solver.
Qed.

Lemma option_filter_spec (v field : option string) :
  (Js.truthy v = true → bool_decide (field = v) = true) ↔
  (∀ d, v = Some d → d ≠ "" → field = Some d).
Proof.
  unfold Js.truthy, Js.truthy_string.
  destruct v as [d|]; [|naive_solver].
  repeat case_bool_decide; simpl; naive_solver.
Qed.

(** C7, as the code has it. The list is answered 200 with exactly the
    stored orders that satisfy every filter in force, newest first. A
    filter is in force when the request gives it a non-empty value; the
    status value [all] puts no status filter in force. *)
Theorem list_orders_filtered_sorted (st : Store) (q : OrderQuery) :
  ∃ l,
    list_orders st q = json 200 (BOrders l) ∧
    (∀ o, o ∈ l ↔ stored st o ∧ satisfies_filters q o) ∧
    newest_first_sorted l.
Proof.
  eexists. split; [reflexivity|]. split.
  - intros o. rewrite js_sort_perm.
    rewrite !elem_of_filter_if, elem_of_getOrders.
    unfold satisfies_filters.
    rewrite status_filter_spec, !option_filter_spec. naive_solver.
  - apply js_sort_newest_first.
Qed.

(** C7 as stated fails for the status value [all]: the request provides
    a status filter, and the returned order does not have that status. *)
Lemma list_orders_status_all :
  list_orders sample_store (mkOrderQuery (Some "all") None None None)
    = json 200 (BOrders [sample_order]) ∧
  stored sample_store sample_order ∧
  ¬ satisfies_provided (mkOrderQuery (Some "all") None None None) sample_order.
Proof.
  split; [reflexivity|]. split.
  - by exists "o1".
  - intros (Hstatus & _). specialize (Hstatus "all" eq_refl). discriminate.
Qed.

(** ** Order creation *)







(** ** Checkout total *)

Lemma updateDriver_orders (st : Store) (did : string) (b : bool) :
  orders (updateDriver st did b).1 = orders st.
Proof. unfold updateDriver. by destruct (drivers st !! did). Qed.

Lemma assign_driver_keeps_amounts (now : Z) (notify_ok : bool) (st : Store)
    (oid : string) (body_driverId : option string) (o : Order) :
  getOrder st oid = Some o →
  ∃ o2, getOrder (assign_driver now notify_ok st oid body_driverId).1 oid = Some o2
        ∧ amounts o2 = amounts o.
Proof.
  intros Ho. unfold assign_driver.
  destruct (negb _); [by exists o|]. rewrite Ho.
  destruct (Js.truthy _); [by exists o|].
  destruct (getDriver st _) as [driver|]; [|by exists o].
  rewrite (updateOrder_found _ _ _ _ Ho). cbn [fst].
  eexists. unfold getOrder. rewrite try_notify_orders, updateDriver_orders.
  simpl. rewrite lookup_insert_eq. done.
Qed.

Lemma put_order_keeps_amounts (now : Z) (notify_ok : bool) (st : Store)
    (oid : string) (p : OrderPatch) (o : Order) :
  getOrder st oid = Some o → leaves_amounts p →
  ∃ o2, getOrder (put_order now notify_ok st oid p).1 oid = Some o2
        ∧ amounts o2 = amounts o.
Proof.
  intros Ho (Hs & Hf & Ht & Ha). unfold put_order.
  rewrite (updateOrder_found _ _ _ _ Ho).
  eexists. split.
  - unfold getOrder.
    destruct (p_status p) as [s|]; [destruct (Js.truthy_string s)|];
      cbn [fst]; rewrite ?try_notify_orders; simpl; by rewrite lookup_insert_eq.
  - unfold amounts, apply_patch, with_updatedAt. simpl.
    by rewrite Hs, Hf, Ht, Ha.
Qed.

(** C5. An order that checkout produces and the server stores has as
    total, and as totalAmount, the text of the sum of the cart's subtotal
    and the delivery fee (the sum of two JavaScript numbers), and as
    subtotal and delivery fee the text of those two numbers. The sum is
    taken once, by the checkout page: a later driver assignment, and a
    later update that gives no amount, leave the four amounts as they
    are. *)
Theorem checkout_total_is_sum
    (number_toString : PrimFloat.float → string)
    (JSON_stringify : list CartCheckout.CartItem → string)
    (validateForm : CartCheckout.OrderForm → list (string * string))
    (schema_accepts : InsertOrder → bool)
    (now : Z) (form : CartCheckout.OrderForm) (items : list CartCheckout.CartItem)
    (subtotal_number fee_number : PrimFloat.float) (od : OrderData)
    (now' : Z) (rnd : N) (new_id : string) (notify_ok : bool)
    (st st' : Store) (o : Order) (number : string) :
  CartCheckout.handlePlaceOrder number_toString JSON_stringify validateForm
    now form items subtotal_number fee_number = Some od →
  post_order schema_accepts now' rnd new_id notify_ok st od
    = (st', json 201 (BCreated o number)) →
  (total o = number_toString (PrimFloat.add subtotal_number fee_number) ∧
   totalAmount o = total o ∧
   subtotal o = number_toString subtotal_number ∧
   deliveryFee o = number_toString fee_number ∧
   getOrder st' (id o) = Some o) ∧
  (∀ t ok body, ∃ o2,
      getOrder (assign_driver t ok st' (id o) body).1 (id o) = Some o2 ∧
      amounts o2 = amounts o) ∧
  (∀ t ok p, leaves_amounts p → ∃ o2,
      getOrder (put_order t ok st' (id o) p).1 (id o) = Some o2 ∧
      amounts o2 = amounts o).
Proof.
  intros Hplace Hpost.
  assert (total o = number_toString (PrimFloat.add subtotal_number fee_number) ∧
          totalAmount o = total o ∧
          subtotal o = number_toString subtotal_number ∧
          deliveryFee o = number_toString fee_number ∧
          getOrder st' (id o) = Some o) as Hsum.
  { unfold CartCheckout.handlePlaceOrder in Hplace.
    destruct (Nat.ltb _ _); [done|]. destruct (Nat.eqb _ _); [done|].
    injection Hplace as <-.
    unfold post_order, insertOrderSchema_parse in Hpost.
    destruct (missing_required _); [done|].
    destruct (schema_accepts _); [|done].
    cbn [createOrder] in Hpost. injection Hpost as <- <- _.
    unfold getOrder. rewrite try_notify_orders. simpl.
    by rewrite lookup_insert_eq. }
  split; [exact Hsum|]. destruct Hsum as (_ & _ & _ & _ & Hstored). split.
  - intros t ok body. by apply assign_driver_keeps_amounts.
  - intros t ok p Hp. by apply put_order_keeps_amounts.
Qed.

Lemma checkout_total_is_sum_witness :
  ∃ od st' o,
    CartCheckout.handlePlaceOrder
      CheckoutSample.whole_number_toString CheckoutSample.stringify
      CheckoutSample.no_errors 1700000000000 CheckoutSample.form
      CheckoutSample.cart CheckoutSample.fifty CheckoutSample.five = Some od ∧
    post_order (λ _, true) 1700000000500 42 "o2" true sample_store od
      = (st', json 201 (BCreated o "ORD170000000050042")) ∧
    total o = "55" ∧ totalAmount o = "55" ∧ subtotal o = "50" ∧ deliveryFee o = "5".
Proof.
  eexists _, _, _. split; [reflexivity|]. split; [reflexivity|].
  destruct (checkout_total_is_sum
              CheckoutSample.whole_number_toString CheckoutSample.stringify
              CheckoutSample.no_errors (λ _, true)
              1700000000000 CheckoutSample.form CheckoutSample.cart
              CheckoutSample.fifty CheckoutSample.five _
              1700000000500 42 "o2" true sample_store _ _ _
              eq_refl eq_refl) as ((Htotal & Hamount & Hsub & Hfee & _) & _).
  repeat split; assumption.
Defined.

(** ** Delivery fee *)

Section DeliveryFee.
Import PrimFloat CartFee.
Local Open Scope float_scope.

Variable Math_sin : float → float.
Variable Math_cos : float → float.
Variable Math_atan2 : float → float → float.

(** Results the language fixes. *)
Hypothesis sin_zero : Math_sin 0 = 0.
Hypothesis atan2_zero_one : Math_atan2 0 1 = 0.
Hypothesis atan2_nan : ∀ y, Math_atan2 y nan = nan.

(** The engine's results at the arguments the two sample locations
    reach. *)
Hypothesis cos_restaurant_lat : Math_cos 0.26824663405601645 = 0.9642370924872777.
Hypothesis sin_half_dLat : Math_sin (-0.26824663379421715) = -0.26504118422967543.
Hypothesis cos_customer_lat : Math_cos (-0.2682466335324177) = 0.9642370926260531.
Hypothesis sin_half_dLng : Math_sin (-1.5707963373279585) = -1.

Ltac float_value x := let v := eval vm_compute in x in progress change x with v.

Ltac evaluate_arguments :=
  repeat match goal with
         | |- context [Math_sin ?x] => float_value x
         | |- context [Math_cos ?x] => float_value x
         | |- context [Math_atan2 ?x ?y] => first [float_value x | float_value y]
         end.

Lemma nearest_integer_nearest (negative : bool) (m : positive) (e : Z) :
  (e < 0)%Z →
  ((2 * signed negative (nearest_integer negative m e) - 1) * 2 ^ (- e)
   ≤ 2 * signed negative (Z.pos m)
   < (2 * signed negative (nearest_integer negative m e) + 1) * 2 ^ (- e))%Z.
Proof.
  intros He. unfold nearest_integer, signed.
  assert (0 < 2 ^ (- e))%Z as Hunit by (apply Z.pow_pos_nonneg; lia).
  pose proof (Z.div_mod (Z.pos m) (2 ^ (- e)) ltac:(lia)) as Hdiv.
  pose proof (Z.mod_pos_bound (Z.pos m) (2 ^ (- e)) Hunit) as Hmod.
  set (unit := (2 ^ (- e))%Z) in *.
  set (whole := (Z.pos m / unit)%Z) in *.
  set (part := (Z.pos m mod unit)%Z) in *.
  destruct negative.
  - destruct (Z.ltb_spec unit (2 * part)); nia.
  - destruct (Z.leb_spec unit (2 * part)); nia.
Qed.

Lemma Math_round_fraction (x : float) (negative : bool) (m : positive) (e : Z) :
  FloatOps.Prim2SF x = SpecFloat.S754_finite negative m e → (e < 0)%Z →
  Math_round x = integral negative (nearest_integer negative m e).
Proof.
  intros Hx He. unfold Math_round. rewrite Hx.
  by rewrite (proj2 (Z.leb_gt 0 e)) by lia.
Qed.

Lemma haversine_term_near_antipode :
  haversine_term Math_sin Math_cos restaurantLat restaurantLng
    (lat FeeSample.near_antipode) (lng FeeSample.near_antipode)
  = 1.0000000000000002.
Proof.
  cbv [haversine_term Math_PI restaurantLat restaurantLng lat lng
       FeeSample.near_antipode].
  evaluate_arguments.
  rewrite sin_half_dLat, sin_half_dLng, cos_restaurant_lat, cos_customer_lat.
  reflexivity.
Qed.

Lemma fee_of_NaN_root (items_length : nat) (location : LocationData) (fee : float) :
  (0 < items_length)%nat →
  sqrt (1 - haversine_term Math_sin Math_cos restaurantLat restaurantLng
             (lat location) (lng location)) = nan →
  calculateDistance Math_sin Math_cos Math_atan2 restaurantLat restaurantLng
    (lat location) (lng location) = nan ∧
  handleLocationSelect Math_sin Math_cos Math_atan2 items_length location fee = nan.
Proof.
  intros Hitems Hnan. unfold handleLocationSelect.
  rewrite (proj2 (Nat.ltb_lt _ _) Hitems).
  cbv [calculateDistance]. rewrite Hnan, atan2_nan. split; reflexivity.
Qed.

(** C6 on the code. With items in the cart, choosing a location sets the
    fee to [Math.max(3, Math.round(distance * 2))], the distance being
    what [calculateDistance] returns from the restaurant point
    (15.3694, 44.1910), and the effect on the location recomputes the
    same; with an empty cart the fee stays. A number with a fraction is
    rounded to the nearest integer, a tie going up. The distance from
    the restaurant point to itself is 0, which gives the fee 3; 10 km
    give 20, 1.75 km give 4 and 2.25 km give 5. But the formula takes the
    square root of one minus the haversine term, and in binary64 that
    term can exceed one: wherever that root is NaN, the distance and the
    fee are NaN. At (-15.36939997, -135.809001207) the term is
    1.0000000000000002, and the fee is NaN. *)
Theorem delivery_fee_on_binary64 :
  (∀ items_length location fee,
     handleLocationSelect Math_sin Math_cos Math_atan2 items_length location fee
     = (if Nat.ltb 0 items_length
        then Math_max 3
               (Math_round
                  (calculateDistance Math_sin Math_cos Math_atan2 15.3694 44.1910
                     (lat location) (lng location) * 2))
        else fee) ∧
     recalculate_fee Math_sin Math_cos Math_atan2 items_length (Some location) fee
     = handleLocationSelect Math_sin Math_cos Math_atan2 items_length location fee) ∧
  (∀ x negative m e,
     FloatOps.Prim2SF x = SpecFloat.S754_finite negative m e → (e < 0)%Z →
     Math_round x = integral negative (nearest_integer negative m e) ∧
     ((2 * signed negative (nearest_integer negative m e) - 1) * 2 ^ (- e)
      ≤ 2 * signed negative (Z.pos m)
      < (2 * signed negative (nearest_integer negative m e) + 1) * 2 ^ (- e))%Z) ∧
  calculateDistance Math_sin Math_cos Math_atan2 15.3694 44.1910 15.3694 44.1910 = 0 ∧
  (∀ items_length fee,
     (0 < items_length)%nat →
     handleLocationSelect Math_sin Math_cos Math_atan2 items_length
       FeeSample.restaurant fee = 3) ∧
  fee_of_distance 0 = 3 ∧
  fee_of_distance 10 = 20 ∧
  fee_of_distance 1.75 = 4 ∧
  fee_of_distance 2.25 = 5 ∧
  (∀ items_length location fee,
     (0 < items_length)%nat →
     sqrt (1 - haversine_term Math_sin Math_cos 15.3694 44.1910
                (lat location) (lng location)) = nan →
     calculateDistance Math_sin Math_cos Math_atan2 15.3694 44.1910
       (lat location) (lng location) = nan ∧
     handleLocationSelect Math_sin Math_cos Math_atan2 items_length location fee
     = nan) ∧
  haversine_term Math_sin Math_cos 15.3694 44.1910 (-15.36939997) (-135.809001207)
  = 1.0000000000000002 ∧
  calculateDistance Math_sin Math_cos Math_atan2 15.3694 44.1910
    (-15.36939997) (-135.809001207) = nan ∧
  (∀ items_length fee,
     (0 < items_length)%nat →
     handleLocationSelect Math_sin Math_cos Math_atan2 items_length
       FeeSample.near_antipode fee = nan).
Proof.
  assert (calculateDistance Math_sin Math_cos Math_atan2 15.3694 44.1910
            15.3694 44.1910 = 0) as Hsame.
  { cbv [calculateDistance haversine_term Math_PI]. evaluate_arguments.
    rewrite sin_zero, cos_restaurant_lat. evaluate_arguments.
    rewrite atan2_zero_one. reflexivity. }
  assert (sqrt (1 - haversine_term Math_sin Math_cos restaurantLat restaurantLng
                      (lat FeeSample.near_antipode) (lng FeeSample.near_antipode))
          = nan) as Hroot by (rewrite haversine_term_near_antipode; reflexivity).
  split; [intros items_length location fee; split; reflexivity|].
  split; [intros x negative m e Hx He; split;
          [by apply Math_round_fraction|by apply nearest_integer_nearest]|].
  split; [exact Hsame|].
  split.
  { intros items_length fee Hitems. unfold handleLocationSelect.
    rewrite (proj2 (Nat.ltb_lt _ _) Hitems).
    change (calculateDistance Math_sin Math_cos Math_atan2 restaurantLat restaurantLng
              (lat FeeSample.restaurant) (lng FeeSample.restaurant))
      with (calculateDistance Math_sin Math_cos Math_atan2 15.3694 44.1910
              15.3694 44.1910).
    rewrite Hsame. reflexivity. }
  do 4 (split; [reflexivity|]).
  split; [intros items_length location fee; apply fee_of_NaN_root|].
  split; [apply haversine_term_near_antipode|].
  split; [apply (fee_of_NaN_root 1 FeeSample.near_antipode 5); [lia|exact Hroot]|].
  intros items_length fee Hitems.
  by apply (fee_of_NaN_root items_length FeeSample.near_antipode fee).
Qed.

End DeliveryFee.

Section DeliveryFeeSample.
Import PrimFloat.
Local Open Scope float_scope.

Lemma delivery_fee_on_binary64_witness :
  CartFee.handleLocationSelect FeeSample.sine FeeSample.cosine FeeSample.arctangent2
    1 FeeSample.restaurant CartFee.default_fee = 3 ∧
  CartFee.haversine_term FeeSample.sine FeeSample.cosine
    15.3694 44.1910 (-15.36939997) (-135.809001207) = 1.0000000000000002 ∧
  CartFee.handleLocationSelect FeeSample.sine FeeSample.cosine FeeSample.arctangent2
    1 FeeSample.near_antipode CartFee.default_fee = nan.
Proof.
  destruct (delivery_fee_on_binary64 FeeSample.sine FeeSample.cosine
              FeeSample.arctangent2)
    as (_ & _ & _ & Hrestaurant & _ & _ & _ & _ & _ & Hterm & _ & Hfar);
    [reflexivity | reflexivity | | reflexivity | reflexivity | reflexivity
     | reflexivity | ].
  - intros y. unfold FeeSample.arctangent2.
    by rewrite orb_true_r.
  - split; [apply Hrestaurant; lia|]. split; [exact Hterm|apply Hfar; lia].
Defined.

End DeliveryFeeSample.

(** ** Worked instances on the sample store *)

Lemma assign_driver_second_is_conflict_witness :
  assign_driver 8 true (assign_driver 7 true sample_store "o1" (Some "d1")).1
    "o1" (Some "d2")
  = ((assign_driver 7 true sample_store "o1" (Some "d1")).1, resp_already_assigned).
Proof.
  apply (assign_driver_second_is_conflict 7 8 true true sample_store "o1" "d1" "d2"
           sample_order (mkDriver "d1" "Ali" "771111111" true None));
    [discriminate | discriminate | reflexivity | reflexivity | reflexivity].
Defined.

Lemma assign_driver_race_witness :
  ∃ st' u1 u2,
    run_two in_turn 9 false sample_store
      (AtStart "o1" (Some "d2")) (AtStart "o1" (Some "d1"))
      = (st', AtDone (json 200 (BAssigned u1)), AtDone (json 200 (BAssigned u2))) ∧
    driverId u1 = Some "d2" ∧ driverId u2 = Some "d1" ∧
    driverId <$> getOrder st' "o1" = Some (Some "d1") ∧
    isAvailable <$> getDriver st' "d2" = Some false ∧
    isAvailable <$> getDriver st' "d1" = Some false.
Proof.
  apply (assign_driver_race 9 false sample_store "o1" "d2" "d1" sample_order
           (mkDriver "d2" "Omar" "772222222" true None)
           (mkDriver "d1" "Ali" "771111111" true None));
    [discriminate | discriminate | discriminate
    | reflexivity | reflexivity | reflexivity | reflexivity].
Defined.

Lemma put_order_unknown_status_witness :
  ∃ st' updated sent,
    put_order 7 true sample_store "o1" (status_update "archived")
      = (st', json 200 (BOrder updated)) ∧
    getOrder st' "o1" = Some updated ∧
    status updated = "archived" ∧
    notifications st' = notifications sample_store ++ [sent] ∧
    n_recipientType sent = "customer" ∧
    n_message sent = Js.VString fallback_message.
Proof.
  apply (put_order_unknown_status 7 sample_store "o1" "archived" sample_order
           (status_update "archived"));
    [reflexivity | reflexivity | discriminate | | ].
  - unfold has_status_message. simpl. rewrite !elem_of_cons, elem_of_nil.
    intros H. destruct_or!; discriminate || done.
  - unfold Js.object_prototype_names. rewrite !elem_of_cons, elem_of_nil.
    intros H. destruct_or!; discriminate || done.
Defined.

(** * Further properties of the router *)

(** ** Creation, lookup and update *)

Lemma get_order_found (st : Store) (oid : string) (o : Order) :
  getOrder st oid = Some o → get_order st oid = json 200 (BOrder o).
Proof. unfold get_order. by intros ->. Qed.

(** A created order can be fetched under the identifier it was given,
    every other identifier is answered as before, no driver changes, and
    the administrators are sent one notification when its creation does
    not throw; a creation that is not answered 201 leaves the store as it
    was. *)
Theorem created_order_can_be_fetched (schema_accepts : InsertOrder → bool)
    (now : Z) (rnd : N) (new_id : string) (notify_ok : bool) (st : Store)
    (d : OrderData) :
  (code (post_order schema_accepts now rnd new_id notify_ok st d).2 ≠ 201 →
   (post_order schema_accepts now rnd new_id notify_ok st d).1 = st) ∧
  (∀ st' o number,
     post_order schema_accepts now rnd new_id notify_ok st d
       = (st', json 201 (BCreated o number)) →
     id o = new_id ∧
     get_order st' new_id = json 200 (BOrder o) ∧
     (∀ oid, oid ≠ new_id → get_order st' oid = get_order st oid) ∧
     drivers st' = drivers st ∧
     (notify_ok = false → notifications st' = notifications st) ∧
     (notify_ok = true →
      ∃ n, notifications st' = notifications st ++ [n] ∧
           n_recipientType n = "admin" ∧ n_orderId n = new_id ∧ n_isRead n = false)).
Proof.
  unfold post_order, insertOrderSchema_parse.
  destruct (missing_required d); [by split|].
  destruct (schema_accepts _); [|by split].
  cbn [createOrder]. split; [done|].
  intros st' o number Hcreated. injection Hcreated as <- <- _.
  split; [reflexivity|]. split.
  { apply get_order_found. unfold getOrder. rewrite try_notify_orders. simpl.
    by rewrite lookup_insert_eq. }
  split.
  { intros oid Hne. unfold get_order, getOrder. rewrite try_notify_orders. simpl.
    by rewrite lookup_insert_ne. }
  split; [by rewrite try_notify_drivers|].
  split; [by intros ->|].
  intros ->. eexists. split; [reflexivity|]. done.
Qed.

Lemma created_order_can_be_fetched_witness :
  ∃ st' o,
    post_order (λ _, true) 1700000000000 42 "o2" true sample_store
      (mkOrderData (Some "Amal") (Some "770000000") (Some "Hadda street, Sanaa")
         (Some "[]") (Some "50") (Some "5") (Some "55") (Some "55")
         None None None None None)
      = (st', json 201 (BCreated o "ORD170000000000042")) ∧
    get_order st' "o2" = json 200 (BOrder o) ∧
    get_order st' "o1" = json 200 (BOrder sample_order).
Proof.
  eexists _, _. split; [reflexivity|].
  destruct (created_order_can_be_fetched (λ _, true) 1700000000000 42 "o2" true
              sample_store
              (mkOrderData (Some "Amal") (Some "770000000")
                 (Some "Hadda street, Sanaa")
                 (Some "[]") (Some "50") (Some "5") (Some "55") (Some "55")
                 None None None None None)) as [_ Hcreated].
  destruct (Hcreated _ _ _ eq_refl) as (_ & Hget & Hother & _).
  split; [exact Hget|]. by rewrite Hother.
Defined.



(** ** What an assignment leaves alone *)

(** Whatever the request and whatever its outcome, an assignment creates
    and removes no order and no driver, changes no order but the one it
    names and no driver but the one it names, keeps that order's
    identity, customer and amounts, leaves the named driver's name, phone
    and location as they were, and appends at most one notification,
    which is about the order. *)
Theorem assign_driver_touches_only_its_order_and_driver (now : Z) (notify_ok : bool)
    (st : Store) (oid : string) (body_driverId : option string) :
  ∃ st' r,
    assign_driver now notify_ok st oid body_driverId = (st', r) ∧
    dom (orders st') = dom (orders st) ∧
    dom (drivers st') = dom (drivers st) ∧
    (∀ oid', oid' ≠ oid → getOrder st' oid' = getOrder st oid') ∧
    (∀ d', body_driverId ≠ Some d' → getDriver st' d' = getDriver st d') ∧
    (∀ o, getOrder st oid = Some o →
       ∃ o', getOrder st' oid = Some o' ∧ identity_of o' = identity_of o ∧
             customer_of o' = customer_of o ∧ amounts o' = amounts o) ∧
    (∀ d driver, getDriver st d = Some driver →
       ∃ driver', getDriver st' d = Some driver' ∧
                  driver_id driver' = driver_id driver ∧
                  driver_name driver' = driver_name driver ∧
                  driver_phone driver' = driver_phone driver ∧
                  currentLocation driver' = currentLocation driver) ∧
    (notifications st' = notifications st ∨
     ∃ n, notifications st' = notifications st ++ [n] ∧
          n_type n = "order_assigned" ∧ n_orderId n = oid).
Proof.
  eexists _, _. split; [apply surjective_pairing|].
  pattern ((assign_driver now notify_ok st oid body_driverId).1).
  match goal with |- ?P _ => assert (P st) as Hsame end.
  { split; [done|]. split; [done|]. split; [done|]. split; [done|].
    split; [intros o Ho; by exists o|].
    split; [intros d driver Hd; by exists driver|]. by left. }
  destruct (Js.truthy body_driverId) eqn:Hbody;
    [apply truthy_inv in Hbody as (d & -> & Hd)
    |unfold assign_driver; rewrite Hbody; cbn [negb fst]; exact Hsame].
  destruct (getOrder st oid) as [order|] eqn:Horder;
    [|unfold assign_driver; rewrite truthy_Some, Horder by done; cbn [negb fst];
      rewrite ?Horder; exact Hsame].
  destruct (Js.truthy (driverId order)) eqn:Htaken;
    [unfold assign_driver; rewrite truthy_Some, Horder, Htaken by done;
     cbn [negb fst]; rewrite ?Horder; exact Hsame|].
  destruct (getDriver st d) as [driver|] eqn:Hdriver;
    [|unfold assign_driver; rewrite truthy_Some, Horder, Htaken by done;
      change (default "" (Some d)) with d; rewrite Hdriver; cbn [negb fst];
      rewrite ?Horder; exact Hsame].
  clear Hsame.
  rewrite (assign_driver_run now notify_ok st oid d order driver) by done.
  cbn [fst]. unfold getOrder, getDriver in *.
  rewrite try_notify_orders, try_notify_drivers.
  cbn [orders drivers set_orders set_drivers].
  split; [apply dom_insert_lookup_L; eauto|].
  split; [apply dom_insert_lookup_L; eauto|].
  split; [by intros oid' Hne; rewrite lookup_insert_ne|].
  split; [intros d' Hne; rewrite lookup_insert_ne; [done|congruence]|].
  split.
  { intros o Ho. injection Ho as <-.
    rewrite lookup_insert_eq. eexists. split; [reflexivity|]. done. }
  split.
  { intros d0 driver0 Hd0. destruct (decide (d = d0)) as [<-|Hne].
    - rewrite Hdriver in Hd0. injection Hd0 as <-.
      rewrite lookup_insert_eq. eexists. split; [reflexivity|]. done.
    - rewrite lookup_insert_ne by done. eauto 10. }
  destruct notify_ok; [right|by left].
  eexists. split; [reflexivity|]. done.
Qed.

(** ** The timeline, end to end *)

Lemma findIndex_cases {A} (test : A → bool) (l : list A) :
  Js.findIndex test l = -1 ∨
  ∃ k x, l !! k = Some x ∧ test x = true ∧ Js.findIndex test l = Z.of_nat k.
Proof.
  induction l as [|a l IH]; simpl; [by left|].
  destruct (test a) eqn:Ha; [right; by exists 0%nat, a|].
  destruct IH as [->|(k & x & Hk & Hx & ->)].
  - left. by rewrite bool_decide_eq_true_2.
  - right. exists (S k), x. rewrite bool_decide_eq_false_2 by lia.
    repeat split; [done..|lia].
Qed.

Lemma fmap_imap_by_element {A B C} (g : B → C) (f : nat → A → B) (h : A → C)
    (l : list A) :
  (∀ j x, g (f j x) = h x) → g <$> imap f l = h <$> l.
Proof.
  revert f. induction l as [|x l IH]; intros f Hgf; [done|].
  cbn [imap fmap list_fmap]. rewrite Hgf. f_equal.
  apply IH. intros j y. apply Hgf.
Qed.

Lemma fmap_imap_from {A B C} (g : B → C) (h : nat → C) (l : list A) :
  ∀ (f : nat → A → B) (start : nat),
    (∀ j x, g (f j x) = h (start + j)%nat) →
    g <$> imap f l = h <$> seq start (length l).
Proof.
  induction l as [|x l IH]; intros f start Hgf; [done|].
  cbn [imap fmap list_fmap length seq]. f_equal.
  - rewrite Hgf. f_equal. lia.
  - apply IH. intros j y. unfold compose. rewrite Hgf. f_equal. lia.
Qed.

Lemma fmap_imap_by_index {A B C} (g : B → C) (f : nat → A → B) (h : nat → C)
    (l : list A) :
  (∀ j x, g (f j x) = h j) → g <$> imap f l = h <$> seq 0 (length l).
Proof. intros Hgf. by apply fmap_imap_from. Qed.

Lemma StronglySorted_take {A} (R : A → A → Prop) (n : nat) (l : list A) :
  StronglySorted R l → StronglySorted R (take n l).
Proof.
  intros Hl. revert n. induction Hl as [|x l Hl IH Hx]; intros [|n]; simpl;
    try constructor; [apply IH|]. by apply Forall_take.
Qed.

(** The timeline of every order has at most seven entries, numbered from
    1, in strictly increasing time; it starts, when it is not empty, with
    the receipt of the order at its creation time, entered by the system,
    and ends with the order's current status; the second and third
    entries are the restaurant's and the later ones the driver's. *)
Theorem tracking_is_chronological (order : Order) :
  ∃ tracking,
    build_tracking order = Some tracking ∧
    (length tracking ≤ 7)%nat ∧
    StronglySorted Z.lt (t_timestamp <$> tracking) ∧
    t_id <$> tracking = pretty <$> seqZ 1 (Z.of_nat (length tracking)) ∧
    t_createdByType <$> tracking
      = take (length tracking)
          ["system"; "restaurant"; "restaurant"; "driver"; "driver"; "driver"; "driver"] ∧
    (∀ entry, head tracking = Some entry →
       t_status entry = "pending" ∧ t_timestamp entry = createdAt order) ∧
    (∀ entry, last tracking = Some entry → t_status entry = status order).
Proof.
  eexists. split; [apply build_tracking_eq|].
  set (n := Z.to_nat (currentStatusIndex order + 1)).
  set (f := λ (j : nat) (step : StatusStep),
              tracking_entry (createdAt order) (Z.of_nat j) step).
  assert (length (imap f (take n statusSteps)) = (n `min` 7)%nat) as Hlen
    by (by rewrite length_imap, length_take).
  split; [lia|]. split; [|split; [|split; [|split]]].
  - rewrite (fmap_imap_by_element _ f
               (λ step, createdAt order + s_offset step * 60000)) by done.
    rewrite fmap_take. apply StronglySorted_take. cbn.
    repeat match goal with
           | |- StronglySorted _ [] => apply SSorted_nil
           | |- StronglySorted _ (_ :: _) => apply SSorted_cons
           | |- Forall _ [] => apply Forall_nil
           | |- Forall _ (_ :: _) => apply Forall_cons
           | |- _ ∧ _ => split
           end; lia.
  - rewrite (fmap_imap_by_index _ f (λ j, pretty (Z.of_nat j + 1))) by done.
    unfold seqZ. rewrite Nat2Z.id, <-list_fmap_compose, length_imap. reflexivity.
  - rewrite (fmap_imap_by_index _ f (λ j, createdByType (Z.of_nat j))) by done.
    rewrite Hlen, length_take. change (length statusSteps) with 7%nat.
    assert (n `min` 7 ≤ 7)%nat as Hle by lia.
    revert Hle. generalize (n `min` 7)%nat. intros m Hm.
    do 8 (destruct m as [|m]; [reflexivity|]). lia.
  - intros entry. rewrite head_lookup, list_lookup_imap.
    destruct (take n statusSteps !! 0%nat) as [step|] eqn:Hfirst; [|done].
    intros [= <-]. apply lookup_take_Some in Hfirst as [Hfirst _].
    injection Hfirst as <-. cbn. split; [done|lia].
  - intros entry. rewrite last_lookup, list_lookup_imap, Hlen.
    destruct (take n statusSteps !! pred (n `min` 7)) as [step|] eqn:Hlast; [|done].
    intros [= <-]. cbn [t_status tracking_entry f].
    apply lookup_take_Some in Hlast as [Hlast Hlt].
    unfold n, currentStatusIndex in *.
    destruct (findIndex_cases
                (λ step, bool_decide (s_status step = status order)) statusSteps)
      as [Hnone|(k & found & Hk & Hfound & Hidx)].
    + rewrite Hnone in Hlt. simpl in Hlt. lia.
    + rewrite Hidx in Hlast. apply bool_decide_eq_true in Hfound.
      pose proof (lookup_lt_Some _ _ _ Hk) as Hk7. simpl in Hk7.
      replace (pred (Z.to_nat (Z.of_nat k + 1) `min` 7)) with k in Hlast by lia.
      congruence.
Qed.

(** An order that has just been assigned is tracked with three entries,
    the receipt, the confirmation and the preparation, at 0, 5 and 10
    minutes after its creation, together with the name, phone and
    location of its driver, and the tracking page shows the driver
    panel for it. *)
Theorem assigned_order_is_tracked_with_its_driver (now : Z) (notify_ok : bool)
    (st : Store) (oid d : string) (order : Order) (driver : Driver) :
  d ≠ "" →
  getOrder st oid = Some order →
  Js.truthy (driverId order) = false →
  getDriver st d = Some driver →
  ∃ st' updated tracking,
    assign_driver now notify_ok st oid (Some d) = (st', json 200 (BAssigned updated)) ∧
    track_order st' oid
      = json 200 (BTrack updated tracking
                    (Some (mkDriverInfo (driver_id driver) (driver_name driver)
                             (driver_phone driver) (currentLocation driver)))) ∧
    t_status <$> tracking = ["pending"; "confirmed"; "preparing"] ∧
    t_timestamp <$> tracking
      = [createdAt order; createdAt order + 300000; createdAt order + 600000] ∧
    OrderTrackingPage.shows_driver_panel updated = true.
Proof.
  intros Hd Horder Hfree Hdriver.
  rewrite (assign_driver_run now notify_ok st oid d order driver) by done.
  eexists _, _, _. split; [reflexivity|].
  set (updated := apply_patch order (assign_patch d now)).
  assert (status updated = "preparing") as Hstatus by reflexivity.
  assert (driverId updated = Some d) as Hassigned by reflexivity.
  split.
  - unfold track_order, getOrder. rewrite try_notify_orders.
    cbn [orders set_orders set_drivers]. rewrite lookup_insert_eq.
    fold updated. rewrite build_tracking_eq.
    unfold driver_info, getDriver. rewrite Hassigned.
    unfold Js.truthy_string. rewrite bool_decide_eq_false_2 by done. cbn [negb].
    rewrite try_notify_drivers. cbn [drivers set_drivers].
    rewrite lookup_insert_eq.
    unfold currentStatusIndex. rewrite Hstatus. reflexivity.
  - split; [reflexivity|]. split.
    + change (take _ statusSteps) with (take 3 statusSteps).
      cbn. by rewrite Z.add_0_r.
    + unfold OrderTrackingPage.shows_driver_panel.
      rewrite Hstatus, Hassigned, truthy_Some by done. reflexivity.
Qed.

Lemma assigned_order_is_tracked_with_its_driver_witness :
  ∃ st' updated tracking,
    assign_driver 7 true sample_store "o1" (Some "d1")
      = (st', json 200 (BAssigned updated)) ∧
    track_order st' "o1"
      = json 200 (BTrack updated tracking
                    (Some (mkDriverInfo "d1" "Ali" "771111111" None))) ∧
    t_status <$> tracking = ["pending"; "confirmed"; "preparing"] ∧
    t_timestamp <$> tracking = [0; 300000; 600000] ∧
    OrderTrackingPage.shows_driver_panel updated = true.
Proof.
  apply (assigned_order_is_tracked_with_its_driver 7 true sample_store "o1" "d1"
           sample_order (mkDriver "d1" "Ali" "771111111" true None));
    [discriminate | reflexivity | reflexivity | reflexivity].
Defined.

(** * Properties of the router's callers *)

(** ** The driver dashboard's lists *)

Lemma StronglySorted_filter {A} (R : A → A → Prop) (f : A → bool) (l : list A) :
  StronglySorted R l → StronglySorted R (List.filter f l).
Proof.
  induction 1 as [|x l Hl IH Hx]; simpl; [constructor|].
  destruct (f x); [|done]. constructor; [done|].
  rewrite Forall_forall in *. intros y Hy.
  apply Hx. apply list_elem_of_In. apply list_elem_of_In in Hy.
  by apply filter_In in Hy as [Hy _].
Qed.

Lemma elem_of_fetch_availableOrders (st : Store) (o : Order) :
  o ∈ DriverDashboard.fetch_availableOrders st ↔
  stored st o ∧ status o = "confirmed" ∧ Js.truthy (driverId o) = false.
Proof.
  unfold DriverDashboard.fetch_availableOrders, list_orders. cbn [body json].
  rewrite list_elem_of_In, filter_In, <-list_elem_of_In.
  rewrite js_sort_perm, !elem_of_filter_if, elem_of_getOrders.
  cbn. rewrite negb_true_iff, bool_decide_eq_true. naive_solver.
Qed.

Lemma elem_of_fetch_myOrders (orders_elsewhere : Store → string → list Order)
    (st : Store) (driver : Driver) (o : Order) :
  driver_id driver ≠ "" →
  Url.query_safe (driver_id driver) = true →
  o ∈ DriverDashboard.fetch_myOrders orders_elsewhere (Some driver) st ↔
  stored st o ∧ driverId o = Some (driver_id driver).
Proof.
  intros Hid Hsafe. unfold DriverDashboard.fetch_myOrders, list_orders, Js.truthy_string.
  rewrite bool_decide_eq_false_2, Hsafe by done. cbn [negb body json].
  rewrite js_sort_perm, !elem_of_filter_if, elem_of_getOrders.
  cbn. unfold Js.truthy_string.
  rewrite bool_decide_eq_false_2 by done. cbn [negb].
  rewrite bool_decide_eq_true. naive_solver.
Qed.

(** The dashboard's list of available orders holds exactly the stored
    orders that are confirmed and have no driver, newest first. For a
    driver whose id is not empty and is made of characters a query string
    carries as they are, the driver's own list holds exactly the stored
    orders assigned to that driver, newest first. Without a driver, or
    with a driver whose id is empty, the own list is empty and accepting
    an order sends no request. *)
Theorem dashboard_lists (orders_elsewhere : Store → string → list Order)
    (put_elsewhere : Z → bool → Store → string → Js.value → Store * Response)
    (st : Store) (driver : Driver) :
  (∀ o, o ∈ DriverDashboard.fetch_availableOrders st ↔
        stored st o ∧ status o = "confirmed" ∧ Js.truthy (driverId o) = false) ∧
  newest_first_sorted (DriverDashboard.fetch_availableOrders st) ∧
  (driver_id driver ≠ "" → Url.query_safe (driver_id driver) = true →
   newest_first_sorted
     (DriverDashboard.fetch_myOrders orders_elsewhere (Some driver) st) ∧
   ∀ o, o ∈ DriverDashboard.fetch_myOrders orders_elsewhere (Some driver) st ↔
        stored st o ∧ driverId o = Some (driver_id driver)) ∧
  (driver_id driver = "" →
   DriverDashboard.fetch_myOrders orders_elsewhere (Some driver) st = [] ∧
   ∀ now ok oid,
     DriverDashboard.acceptOrder put_elsewhere now ok (Some driver) st oid = None) ∧
  DriverDashboard.fetch_myOrders orders_elsewhere None st = [] ∧
  (∀ now ok oid, DriverDashboard.acceptOrder put_elsewhere now ok None st oid = None).
Proof.
  split; [apply elem_of_fetch_availableOrders|].
  split; [apply StronglySorted_filter, js_sort_newest_first|].
  split.
  { intros Hid Hsafe. split; [|intros o; by apply elem_of_fetch_myOrders].
    unfold DriverDashboard.fetch_myOrders. rewrite Hsafe.
    destruct (Js.truthy_string _); [apply js_sort_newest_first|constructor]. }
  split; [|done].
  intros Hid. unfold DriverDashboard.fetch_myOrders, DriverDashboard.acceptOrder.
  by rewrite Hid.
Qed.

Lemma dashboard_lists_witness :
  DriverDashboard.fetch_availableOrders sample_store = [sample_order] ∧
  ∀ o, o ∈ DriverDashboard.fetch_myOrders (λ _ _, []) (Some (mkDriver "d1" "Ali" "771111111" true None))
             (assign_driver 7 true sample_store "o1" (Some "d1")).1 ↔
       stored (assign_driver 7 true sample_store "o1" (Some "d1")).1 o ∧
       driverId o = Some "d1".
Proof.
  split; [reflexivity|].
  destruct (dashboard_lists (λ _ _, []) (λ _ _ st _ _, (st, error_json 404 ""))
              (assign_driver 7 true sample_store "o1" (Some "d1")).1
              (mkDriver "d1" "Ali" "771111111" true None)) as (_ & _ & Hmine & _).
  apply Hmine; [discriminate|reflexivity].
Defined.

(** ** Accepting an order *)

Lemma stored_after_update (st st' : Store) (oid : string) (u o : Order) :
  store_wf st →
  orders st' = <[oid := u]> (orders st) →
  stored st' o ↔ o = u ∨ (stored st o ∧ id o ≠ oid).
Proof.
  intros Hwf Horders. unfold stored. rewrite Horders. split.
  - intros [k Hk]. destruct (decide (oid = k)) as [<-|Hne].
    + rewrite lookup_insert_eq in Hk. left. congruence.
    + rewrite lookup_insert_ne in Hk by done. right.
      split; [eauto|]. by rewrite (Hwf k o Hk).
  - intros [->|[[k Hk] Hne]].
    + exists oid. by rewrite lookup_insert_eq.
    + exists k. rewrite lookup_insert_ne; [done|]. by rewrite <-(Hwf k o Hk).
Qed.

(** When a driver accepts an order of the available list, in a store
    that keeps each order under its own identifier and knows the driver,
    and the ids of the order and of the driver are ones the request URLs
    carry as they are, the request is answered 200; the order leaves the
    result of the available-orders query, which keeps every other order it
    had; the order is in the result of the driver's own-orders query; and
    the dashboard files it under accepted and not under available. *)
Theorem accepted_order_moves_to_the_driver
    (orders_elsewhere : Store → string → list Order)
    (put_elsewhere : Z → bool → Store → string → Js.value → Store * Response)
    (now : Z) (notify_ok : bool) (st : Store) (driver : Driver) (order : Order) :
  store_wf st →
  driver_id driver ≠ "" →
  Url.query_safe (driver_id driver) = true →
  Url.segment_safe (id order) = true →
  order ∈ DriverDashboard.fetch_availableOrders st →
  is_Some (getDriver st (driver_id driver)) →
  ∃ st' updated,
    DriverDashboard.acceptOrder put_elsewhere now notify_ok (Some driver) st (id order)
      = Some (st', json 200 (BAssigned updated)) ∧
    id updated = id order ∧
    (∀ o, o ∈ DriverDashboard.fetch_availableOrders st' ↔
          o ∈ DriverDashboard.fetch_availableOrders st ∧ id o ≠ id order) ∧
    updated ∈ DriverDashboard.fetch_myOrders orders_elsewhere (Some driver) st' ∧
    ∀ reading,
      updated ∈ DriverDashboard.accepted
                  (DriverDashboard.categorizeOrders reading (Some driver)
                     (DriverDashboard.fetch_availableOrders st'
                      ++ DriverDashboard.fetch_myOrders orders_elsewhere
                           (Some driver) st')) ∧
      updated ∉ DriverDashboard.available
                  (DriverDashboard.categorizeOrders reading (Some driver)
                     (DriverDashboard.fetch_availableOrders st'
                      ++ DriverDashboard.fetch_myOrders orders_elsewhere
                           (Some driver) st')).
Proof.
  intros Hwf Hid Hquery Hsegment Hin [stored_driver Hdriver].
  apply elem_of_fetch_availableOrders in Hin as ([k Hk] & Hconfirmed & Hfree).
  assert (k = id order) as -> by (symmetry; by apply Hwf).
  unfold DriverDashboard.acceptOrder, Js.truthy_string.
  rewrite bool_decide_eq_false_2, Hsegment by done. cbn [negb].
  rewrite (assign_driver_run now notify_ok st (id order) (driver_id driver)
             order stored_driver) by done.
  eexists _, _. split; [reflexivity|].
  set (updated := apply_patch order (assign_patch (driver_id driver) now)).
  set (st' := try_notify _ _ _).
  assert (orders st' = <[id order := updated]> (orders st)) as Horders
    by (unfold st'; by rewrite try_notify_orders).
  assert (status updated = "preparing") as Hstatus by reflexivity.
  assert (driverId updated = Some (driver_id driver)) as Hassigned by reflexivity.
  assert (updated ∈ DriverDashboard.fetch_myOrders orders_elsewhere (Some driver) st')
    as Hmine.
  { apply elem_of_fetch_myOrders; [done..|]. split; [|done].
    apply (stored_after_update st st' (id order) updated); auto. }
  split; [reflexivity|]. split; [|split; [exact Hmine|]].
  - intros o. rewrite !elem_of_fetch_availableOrders.
    rewrite (stored_after_update st st' (id order) updated o Hwf Horders).
    split.
    + intros ([->|[Hs Hne]] & Hc & Hf); [congruence|done].
    + intros ((Hs & Hc & Hf) & Hne). auto.
  - intros reading. unfold DriverDashboard.categorizeOrders.
    cbn [DriverDashboard.accepted DriverDashboard.available].
    rewrite !list_elem_of_In, !filter_In, <-!list_elem_of_In. split.
    + split; [apply elem_of_app; by right|].
      unfold DriverDashboard.is_mine, Js.strict_eq.
      rewrite Hassigned, Hstatus. by rewrite bool_decide_eq_true_2.
    + intros [_ Hp]. rewrite Hstatus in Hp. discriminate.
Qed.

Lemma accepted_order_moves_to_the_driver_witness :
  ∃ st' updated,
    DriverDashboard.acceptOrder (λ _ _ st _ _, (st, error_json 404 "")) 7 true
      (Some (mkDriver "d1" "Ali" "771111111" true None))
      sample_store "o1" = Some (st', json 200 (BAssigned updated)) ∧
    DriverDashboard.fetch_availableOrders st' = [] ∧
    DriverDashboard.fetch_myOrders (λ _ _, [])
      (Some (mkDriver "d1" "Ali" "771111111" true None)) st'
      = [updated].
Proof.
  destruct (accepted_order_moves_to_the_driver (λ _ _, [])
              (λ _ _ st _ _, (st, error_json 404 "")) 7 true sample_store
              (mkDriver "d1" "Ali" "771111111" true None) sample_order)
    as (st' & updated & Hrun & _);
    [ | discriminate | reflexivity | reflexivity | | by eexists | ].
  - intros oid o. unfold sample_store. cbn [orders].
    rewrite lookup_singleton_Some. by intros [<- <-].
  - apply elem_of_fetch_availableOrders. split; [by exists "o1"|done].
  - exists st', updated. split; [exact Hrun|].
    injection Hrun as <- <-. split; reflexivity.
Defined.

(** ** The dashboard's tabs *)

Lemma filter_sublist {A} (f : A → bool) (l : list A) : List.filter f l `sublist_of` l.
Proof.
  induction l as [|x l IH]; simpl; [constructor|].
  destruct (f x); by constructor.
Qed.

(** The four tabs of the dashboard are taken from the orders in their
    order and never share an order: an order under available is confirmed
    and has no driver, and an order under accepted, in progress or
    completed carries the current driver's id. *)
Theorem dashboard_tabs_are_disjoint (reading : Order → bool)
    (currentDriver : option Driver) (orders : list Order) (o : Order) :
  let tabs := DriverDashboard.categorizeOrders reading currentDriver orders in
  let shown := [ DriverDashboard.available tabs; DriverDashboard.accepted tabs;
                 DriverDashboard.inProgress tabs; DriverDashboard.completed tabs ] in
  Forall (λ tab, tab `sublist_of` orders) shown ∧
  (∀ (i j : nat) tab1 tab2,
     shown !! i = Some tab1 → shown !! j = Some tab2 →
     o ∈ tab1 → o ∈ tab2 → i = j) ∧
  (o ∈ DriverDashboard.available tabs →
   status o = "confirmed" ∧ Js.truthy (driverId o) = false) ∧
  (∀ driver, currentDriver = Some driver →
     o ∈ DriverDashboard.accepted tabs ∨ o ∈ DriverDashboard.inProgress tabs
     ∨ o ∈ DriverDashboard.completed tabs →
     driverId o = Some (driver_id driver)).
Proof.
  unfold DriverDashboard.categorizeOrders.
  cbn [DriverDashboard.available DriverDashboard.accepted
       DriverDashboard.inProgress DriverDashboard.completed].
  split; [repeat (constructor; [apply filter_sublist|]); constructor|].
  split; [|split].
  - intros i j tab1 tab2 Hi Hj Hin1 Hin2.
    assert (∀ (p : Order → bool) , o ∈ List.filter p orders → p o = true) as Hp.
    { intros p Hin. by apply list_elem_of_In, filter_In in Hin as [_ Hin]. }
    destruct i as [|[|[|[|i]]]]; destruct j as [|[|[|[|j]]]];
      simplify_eq/=; try done;
      apply Hp, andb_prop in Hin1 as [Hin1 Hin1'];
      apply Hp, andb_prop in Hin2 as [Hin2 Hin2'];
      rewrite ?negb_true_iff, ?bool_decide_eq_true in *;
      rewrite ?elem_of_cons, ?elem_of_nil in *;
      repeat case_bool_decide; destruct_or?; try congruence.
  - intros Hin. apply list_elem_of_In, filter_In in Hin as [_ Hp].
    apply andb_prop in Hp as [Hc Hf].
    apply bool_decide_eq_true in Hc. by apply negb_true_iff in Hf.
  - intros driver -> Hin.
    assert (Js.strict_eq (driverId o) (driver_id driver) = true) as Hmine.
    { destruct Hin as [Hin|[Hin|Hin]];
        apply list_elem_of_In, filter_In in Hin as [_ Hp];
        by apply andb_prop in Hp as [Hp _]. }
    unfold Js.strict_eq in Hmine. destruct (driverId o); [|done].
    apply bool_decide_eq_true in Hmine. congruence.
Qed.

(** ** The status button *)

Lemma statusFlow_consecutive (a b : string) :
  (a, b) ∈ DriverDashboard.statusFlow →
  ∃ (k : nat) (step : StatusStep),
    (1 ≤ k)%nat ∧
    Js.findIndex (λ step, bool_decide (s_status step = a)) statusSteps = Z.of_nat k ∧
    Js.findIndex (λ step, bool_decide (s_status step = b)) statusSteps
      = Z.of_nat (S k) ∧
    statusSteps !! S k = Some step ∧
    s_status step = b ∧
    has_status_message b ∧
    Js.truthy_string b = true.
Proof.
  unfold DriverDashboard.statusFlow, has_status_message.
  rewrite !elem_of_cons, elem_of_nil.
  intros Hflow. destruct_or!; try done; injection Hflow as -> ->.
  all: [> exists 1%nat|exists 2%nat|exists 3%nat|exists 4%nat|exists 5%nat].
  all: eexists; (split; [lia|]); do 4 (split; [reflexivity|]);
    (split; [|reflexivity]); simpl; rewrite !elem_of_cons; auto 10.
Qed.

Lemma tab_orders_status reading currentDriver allOrders type o :
  o ∈ DriverDashboard.tab_orders
        (DriverDashboard.categorizeOrders reading currentDriver allOrders) type →
  match type with
  | DriverDashboard.CardAvailable => status o = "confirmed"
  | DriverDashboard.CardAccepted => status o ∈ ["preparing"; "ready"]
  | DriverDashboard.CardInProgress => status o ∈ ["picked_up"; "on_way"]
  | DriverDashboard.CardCompleted => status o = "delivered"
  end.
Proof.
  destruct type; cbn [DriverDashboard.tab_orders DriverDashboard.categorizeOrders
                      DriverDashboard.available DriverDashboard.accepted
                      DriverDashboard.inProgress DriverDashboard.completed];
    intros [_ Hp]%list_elem_of_In%filter_In;
    apply andb_prop in Hp as [Hp1 Hp2];
    by first [apply bool_decide_eq_true in Hp1 | apply bool_decide_eq_true in Hp2].
Qed.

Lemma filterOrders_subset search_matches searchTerm statusFilter orders o :
  o ∈ DriverDashboard.filterOrders search_matches searchTerm statusFilter orders →
  o ∈ orders.
Proof.
  unfold DriverDashboard.filterOrders.
  destruct (Js.truthy_string searchTerm), (negb _); cbn zeta;
    rewrite ?list_elem_of_In, ?filter_In; naive_solver.
Qed.

Lemma card_has_status_button (type : DriverDashboard.CardType) (o : Order) :
  (type = DriverDashboard.CardAccepted ∧ status o ∈ ["preparing"; "ready"]) ∨
  (type = DriverDashboard.CardInProgress ∧ status o ∈ ["picked_up"; "on_way"]) →
  ∃ s, DriverDashboard.status_button type o = Some (Js.VString s) ∧
       (status o, s) ∈ DriverDashboard.statusFlow.
Proof.
  unfold DriverDashboard.status_button, DriverDashboard.getNextStatus.
  rewrite !elem_of_cons, !elem_of_nil.
  intros [[-> Hs]|[-> Hs]]; destruct_or!; try done; rewrite Hs;
    eexists; (split; [reflexivity|]);
    unfold DriverDashboard.statusFlow; rewrite !elem_of_cons; auto 10.
Qed.

Lemma click_next put_elsewhere (now : Z) (notify_ok : bool) (st : Store)
    (type : DriverDashboard.CardType) (o : Order) (s : string) :
  getOrder st (id o) = Some o →
  Url.segment_safe (id o) = true →
  DriverDashboard.status_button type o = Some (Js.VString s) →
  ∃ st',
    DriverDashboard.click_status_button put_elsewhere now notify_ok st type o
      = Some (st', json 200 (BOrder (apply_patch o
                                       (with_updatedAt (status_update s) now)))) ∧
    getOrder st' (id o) = Some (apply_patch o (with_updatedAt (status_update s) now)) ∧
    orders st' = <[id o := apply_patch o (with_updatedAt (status_update s) now)]>
                   (orders st) ∧
    drivers st' = drivers st ∧
    (Js.truthy_string s = true → notify_ok = true →
     notifications st'
       = notifications st
         ++ [order_update_notification (id o) s
               (apply_patch o (with_updatedAt (status_update s) now))]).
Proof.
  intros Ho Hsafe Hbutton. unfold DriverDashboard.click_status_button.
  rewrite Hbutton. unfold DriverDashboard.updateOrderStatus.
  rewrite Hsafe. unfold put_order. rewrite (updateOrder_found _ _ _ _ Ho).
  eexists. split; [reflexivity|].
  cbn [fst p_status status_update]. unfold getOrder.
  destruct (Js.truthy_string s);
    rewrite ?try_notify_orders, ?try_notify_drivers; cbn [orders drivers set_orders];
    (split; [by rewrite lookup_insert_eq|]); (split; [done|]); (split; [done|]);
    [by intros _ ->|done].
Qed.

Lemma build_tracking_snoc (o u : Order) (k : nat) (step : StatusStep) :
  createdAt u = createdAt o →
  currentStatusIndex o = Z.of_nat k →
  currentStatusIndex u = Z.of_nat (S k) →
  statusSteps !! S k = Some step →
  ∃ tracking,
    build_tracking o = Some tracking ∧
    build_tracking u
      = Some (tracking ++ [tracking_entry (createdAt o) (Z.of_nat (S k)) step]) ∧
    length tracking = S k.
Proof.
  intros Hcreated Ho Hu Hstep. rewrite !build_tracking_eq, Hcreated, Ho, Hu.
  replace (Z.to_nat (Z.of_nat k + 1)) with (S k) by lia.
  replace (Z.to_nat (Z.of_nat (S k) + 1)) with (S (S k)) by lia.
  pose proof (lookup_lt_Some _ _ _ Hstep) as Hlt.
  eexists. split; [reflexivity|]. split.
  - rewrite (take_S_r _ _ _ Hstep), imap_app. cbn [imap].
    rewrite length_take, Nat.min_l, Nat.add_0_r by lia. reflexivity.
  - rewrite length_imap, length_take. lia.
Qed.

(** A card of the accepted or of the in-progress tab has a status
    button. When the card shows the order as it is stored, under an
    identifier that a path carries as it is, a click on the button is
    answered 200 and stores the order under the next status of the
    dashboard's flow, with the time of the click as its update time and
    with the driver, identity, customer and amounts it had. The order's
    timeline is the one it had with one more entry, for the new status.
    That status has a message of its own in the router's table, and the
    customer's notification, when it is stored, carries that message and
    not the fallback. *)
Theorem status_button_advances_the_timeline
    (put_elsewhere : Z → bool → Store → string → Js.value → Store * Response)
    (search_matches : string → Order → bool) (reading : Order → bool)
    (currentDriver : option Driver) (allOrders : list Order)
    (searchTerm statusFilter : string)
    (now : Z) (notify_ok : bool) (st : Store)
    (type : DriverDashboard.CardType) (card : Order) :
  type = DriverDashboard.CardAccepted ∨ type = DriverDashboard.CardInProgress →
  card ∈ DriverDashboard.filterOrders search_matches searchTerm statusFilter
           (DriverDashboard.tab_orders
              (DriverDashboard.categorizeOrders reading currentDriver allOrders) type) →
  getOrder st (id card) = Some card →
  Url.segment_safe (id card) = true →
  ∃ s st' u tracking entry,
    DriverDashboard.status_button type card = Some (Js.VString s) ∧
    (status card, s) ∈ DriverDashboard.statusFlow ∧
    DriverDashboard.click_status_button put_elsewhere now notify_ok st type card
      = Some (st', json 200 (BOrder u)) ∧
    getOrder st' (id card) = Some u ∧
    status u = s ∧
    updatedAt u = now ∧
    driverId u = driverId card ∧
    identity_of u = identity_of card ∧
    customer_of u = customer_of card ∧
    amounts u = amounts card ∧
    build_tracking card = Some tracking ∧
    build_tracking u = Some (tracking ++ [entry]) ∧
    t_status entry = s ∧
    has_status_message s ∧
    (notify_ok = true →
     ∃ n, notifications st' = notifications st ++ [n] ∧
          n_message n = status_message s ∧
          n_message n ≠ Js.VString fallback_message).
Proof.
  intros Htype Hcard Hstored Hsafe.
  apply filterOrders_subset, tab_orders_status in Hcard.
  destruct (card_has_status_button type card) as (s & Hbutton & Hflow).
  { destruct Htype as [-> | ->]; [left|right]; done. }
  destruct (click_next put_elsewhere now notify_ok st type card s Hstored Hsafe Hbutton)
    as (st' & Hclick & Hget & _ & _ & Hnotified).
  destruct (statusFlow_consecutive _ _ Hflow)
    as (k & step & Hk & Hidx & Hidx' & Hstep & Hstatus & Hmessage & Htruthy).
  set (u := apply_patch card (with_updatedAt (status_update s) now)) in *.
  destruct (build_tracking_snoc card u k step) as (tracking & Htrack & Htrack' & _);
    [reflexivity | exact Hidx | exact Hidx' | exact Hstep |].
  exists s, st', u, tracking, (tracking_entry (createdAt card) (Z.of_nat (S k)) step).
  split; [exact Hbutton|]. split; [exact Hflow|]. split; [exact Hclick|].
  split; [exact Hget|]. do 6 (split; [reflexivity|]).
  split; [exact Htrack|]. split; [exact Htrack'|]. split; [exact Hstatus|].
  split; [exact Hmessage|].
  intros Hok. eexists. split; [by apply Hnotified|]. split; [reflexivity|].
  cbn [n_message order_update_notification].
  clear -Hmessage. unfold has_status_message in Hmessage. simpl in Hmessage.
  rewrite !elem_of_cons, elem_of_nil in Hmessage.
  destruct_or!; try done; subst s; discriminate.
Qed.

Lemma status_button_advances_the_timeline_witness :
  ∃ st' u tracking entry,
    DriverDashboard.click_status_button (λ _ _ st _ _, (st, error_json 404 "")) 9 true
      (assign_driver 7 true sample_store "o1" (Some "d1")).1
      DriverDashboard.CardAccepted
      (apply_patch sample_order (assign_patch "d1" 7))
      = Some (st', json 200 (BOrder u)) ∧
    status u = "ready" ∧
    build_tracking (apply_patch sample_order (assign_patch "d1" 7)) = Some tracking ∧
    build_tracking u = Some (tracking ++ [entry]) ∧
    t_status entry = "ready".
Proof.
  destruct (status_button_advances_the_timeline
              (λ _ _ st _ _, (st, error_json 404 "")) (λ _ _, true) (λ _, false)
              (Some (mkDriver "d1" "Ali" "771111111" false None))
              [apply_patch sample_order (assign_patch "d1" 7)] "" "all"
              9 true (assign_driver 7 true sample_store "o1" (Some "d1")).1
              DriverDashboard.CardAccepted
              (apply_patch sample_order (assign_patch "d1" 7)))
    as (s & st' & u & tracking & entry & Hbutton & _ & Hclick & _ & Hstatus & _ & _
        & _ & _ & _ & Htrack & Htrack' & Hentry & _);
    [by left | by left | reflexivity | reflexivity |].
  assert (s = "ready") as -> by (by injection Hbutton as <-).
  by exists st', u, tracking, entry.
Defined.

(** ** From acceptance to delivery *)






(** ** Announcing new orders *)

Lemma Math_max_None (values : list Z) :
  DriverDashboard.Math_max values = None ↔ values = [].
Proof.
  destruct values as [|x rest]; simpl; [done|].
  by destruct (DriverDashboard.Math_max rest).
Qed.

Lemma Math_max_Some (values : list Z) (m : Z) :
  DriverDashboard.Math_max values = Some m →
  m ∈ values ∧ ∀ x, x ∈ values → x ≤ m.
Proof.
  revert m. induction values as [|x rest IH]; intros m; simpl; [done|].
  destruct (DriverDashboard.Math_max rest) as [m'|] eqn:Hrest.
  - intros [= <-]. destruct (IH m' eq_refl) as [Hin Hle]. split.
    + destruct (Z.max_spec x m') as [[_ ->]|[_ ->]]; [by right|by left].
    + intros y [->|Hy]%elem_of_cons; [lia|]. specialize (Hle y Hy). lia.
  - intros [= <-]. apply Math_max_None in Hrest as ->. split; [by left|].
    intros y [->|Hy]%elem_of_cons; [lia|]. by apply elem_of_nil in Hy.
Qed.

(** The dashboard announces new orders exactly when the driver is
    available and some available order was created after the last
    announced time. An announcement moves that time forward to the
    creation time of the newest available order; without an announcement
    the time stays. Run again on the same orders with the time it left,
    the effect announces nothing. *)
Theorem new_orders_are_announced_once (availableOrders : list Order)
    (driverStatus : string) (lastNotificationTime : Z) :
  let after :=
    DriverDashboard.announce_new_orders availableOrders driverStatus
      lastNotificationTime in
  (after.2 = true ↔
   driverStatus = "available" ∧
   ∃ o, o ∈ availableOrders ∧ lastNotificationTime < createdAt o) ∧
  (after.2 = true →
   lastNotificationTime < after.1 ∧
   (∃ o, o ∈ availableOrders ∧ createdAt o = after.1) ∧
   ∀ o, o ∈ availableOrders → createdAt o ≤ after.1) ∧
  (after.2 = false → after.1 = lastNotificationTime) ∧
  (DriverDashboard.announce_new_orders availableOrders driverStatus after.1).2 = false.
Proof.
  unfold DriverDashboard.announce_new_orders.
  destruct (Nat.ltb 0 (length availableOrders)) eqn:Hsome; cbn [andb];
    [|apply Nat.ltb_ge in Hsome; destruct availableOrders; [|simpl in Hsome; lia];
      cbn [fst snd]; split_and!; try done;
      split; [done|]; intros (_ & o & Ho & _); by apply elem_of_nil in Ho].
  case_bool_decide as Hstatus; cbn [fst snd];
    [|rewrite ?Hsome; cbn [andb fst snd]; split_and!; try done;
      split; [done|]; by intros [? _]].
  destruct (DriverDashboard.Math_max (createdAt <$> availableOrders))
    as [latest|] eqn:Hmax;
    [|apply Math_max_None, fmap_nil_inv in Hmax; subst; done].
  destruct (Math_max_Some _ _ Hmax) as [Hin Hle].
  apply list_elem_of_fmap in Hin as (newest & -> & Hnewest).
  assert (∀ o, o ∈ availableOrders → createdAt o ≤ createdAt newest) as Hall.
  { intros o Ho. apply Hle. by apply list_elem_of_fmap_2. }
  destruct (Z.ltb_spec lastNotificationTime (createdAt newest)) as [Hlt|Hge];
    cbn [fst snd].
  - rewrite Z.ltb_irrefl. cbn [fst snd]. split_and!; try done; eauto.
    split; [intros _|done]. eauto.
  - rewrite (proj2 (Z.ltb_ge _ _) Hge). cbn [fst snd]. split_and!; try done.
    split; [done|]. intros (_ & o & Ho & Hnew). specialize (Hall o Ho). lia.
Qed.

(** ** The customer's order list *)

Lemma filter_length_sum {A} (p q r : A → bool) (l : list A) :
  (∀ x, x ∈ l →
     (Nat.b2n (p x) + Nat.b2n (q x) + Nat.b2n (r x) ≤ 1)%nat) →
  (length (List.filter p l) + length (List.filter q l) + length (List.filter r l)
   ≤ length l)%nat.
Proof.
  induction l as [|x l IH]; intros Hone; simpl; [lia|].
  pose proof (Hone x ltac:(by left)) as Hx.
  assert (∀ y, y ∈ l →
            (Nat.b2n (p y) + Nat.b2n (q y) + Nat.b2n (r y) ≤ 1)%nat) as Hrest
    by (intros y Hy; apply Hone; by right).
  specialize (IH Hrest).
  destruct (p x), (q x), (r x); simpl in *; lia.
Qed.

Lemma filter_all {A} (p : A → bool) (l : list A) :
  (∀ x, p x = true) → List.filter p l = l.
Proof.
  intros Hall. induction l as [|x l IH]; simpl; [done|]. by rewrite Hall, IH.
Qed.

(** The three tabs beside the tab of all orders never share an order,
    so their counters sum to at most the counter of all orders; each
    counter is the number of orders its tab lists; and an order that is
    ready or picked up is listed under no tab but the tab of all
    orders. *)
Theorem orders_page_tabs (displayOrders : list Order) :
  (∀ tab, OrdersPage.tab_count tab displayOrders
          = length (OrdersPage.filteredOrders tab displayOrders)) ∧
  (OrdersPage.tab_count OrdersPage.TabActive displayOrders
   + OrdersPage.tab_count OrdersPage.TabCompleted displayOrders
   + OrdersPage.tab_count OrdersPage.TabCancelled displayOrders
   ≤ OrdersPage.tab_count OrdersPage.TabAll displayOrders)%nat ∧
  (∀ o tab1 tab2,
     o ∈ OrdersPage.filteredOrders tab1 displayOrders →
     o ∈ OrdersPage.filteredOrders tab2 displayOrders →
     tab1 = tab2 ∨ tab1 = OrdersPage.TabAll ∨ tab2 = OrdersPage.TabAll) ∧
  (∀ o tab,
     o ∈ displayOrders → status o ∈ ["ready"; "picked_up"] →
     (o ∈ OrdersPage.filteredOrders tab displayOrders ↔ tab = OrdersPage.TabAll)).
Proof.
  assert (∀ o tab, o ∈ OrdersPage.filteredOrders tab displayOrders ↔
                   o ∈ displayOrders ∧ OrdersPage.tab_shows tab o = true) as Hshown.
  { intros o tab. unfold OrdersPage.filteredOrders.
    by rewrite !list_elem_of_In, filter_In. }
  assert (∀ o tab1 tab2,
            OrdersPage.tab_shows tab1 o = true → OrdersPage.tab_shows tab2 o = true →
            tab1 = tab2 ∨ tab1 = OrdersPage.TabAll ∨ tab2 = OrdersPage.TabAll)
    as Hdisjoint.
  { intros o tab1 tab2. destruct tab1, tab2; simpl; auto;
      rewrite !bool_decide_eq_true, ?elem_of_cons, ?elem_of_nil;
      intros H1 H2; destruct_or?; try done; congruence. }
  split; [|split; [|split]].
  - intros tab. unfold OrdersPage.filteredOrders, OrdersPage.tab_count.
    destruct tab; try reflexivity. by rewrite filter_all.
  - cbn [OrdersPage.tab_count]. apply filter_length_sum. intros o _.
    destruct (OrdersPage.tab_shows OrdersPage.TabActive o) eqn:Ha,
             (OrdersPage.tab_shows OrdersPage.TabCompleted o) eqn:Hc,
             (OrdersPage.tab_shows OrdersPage.TabCancelled o) eqn:Hx;
      simpl; try lia.
    all: first [ destruct (Hdisjoint o _ _ Ha Hc) as [?|[?|?]]; discriminate
               | destruct (Hdisjoint o _ _ Ha Hx) as [?|[?|?]]; discriminate
               | destruct (Hdisjoint o _ _ Hc Hx) as [?|[?|?]]; discriminate ].
  - intros o tab1 tab2 [_ H1]%Hshown [_ H2]%Hshown. by eapply Hdisjoint.
  - intros o tab Ho Hstatus. rewrite Hshown. split; [|by intros ->].
    intros [_ Htab]. destruct tab; simpl in Htab; [done|..];
      rewrite bool_decide_eq_true, ?elem_of_cons, ?elem_of_nil in Htab;
      rewrite !elem_of_cons, elem_of_nil in Hstatus;
      destruct_or?; try done; congruence.
Qed.

(** ** The checkout form and the server's required fields *)

Lemma validateForm_nonempty (trim : string → string) (js_length : string → nat)
    (name_pattern_test phone_pattern_test : string → bool)
    (form : CartCheckout.OrderForm) :
  trim "" = "" →
  CartForm.validateForm trim js_length name_pattern_test phone_pattern_test form = [] →
  CartCheckout.f_customerName form ≠ "" ∧
  CartCheckout.f_customerPhone form ≠ "" ∧
  CartCheckout.f_deliveryAddress form ≠ "".
Proof.
  intros Htrim. unfold CartForm.validateForm.
  intros (Hname & (Hphone & Haddress)%app_eq_nil)%app_eq_nil.
  unfold CartForm.name_errors in Hname. unfold CartForm.phone_errors in Hphone.
  unfold CartForm.address_errors in Haddress.
  split_and!; intros Hempty; rewrite Hempty, Htrim in *; done.
Qed.

(** Where trimming the empty string gives the empty string: the
    checkout sends nothing when the name, the phone number or the address
    is empty or the cart has no item; and an order it does send gives the
    three fields the server requires, so that the creation request is
    never answered 400. *)
Theorem validated_checkout_passes_required_fields
    (trim : string → string) (js_length : string → nat)
    (name_pattern_test phone_pattern_test : string → bool)
    (number_toString : PrimFloat.float → string)
    (JSON_stringify : list CartCheckout.CartItem → string)
    (now : Z) (form : CartCheckout.OrderForm) (items : list CartCheckout.CartItem)
    (subtotal_number fee_number : PrimFloat.float) :
  trim "" = "" →
  (CartCheckout.f_customerName form = "" ∨ CartCheckout.f_customerPhone form = ""
   ∨ CartCheckout.f_deliveryAddress form = "" ∨ items = [] →
   CartCheckout.handlePlaceOrder number_toString JSON_stringify
     (CartForm.validateForm trim js_length name_pattern_test phone_pattern_test)
     now form items subtotal_number fee_number = None) ∧
  (∀ od,
     CartCheckout.handlePlaceOrder number_toString JSON_stringify
       (CartForm.validateForm trim js_length name_pattern_test phone_pattern_test)
       now form items subtotal_number fee_number = Some od →
     missing_required od = false ∧
     ∀ schema_accepts now' rnd new_id notify_ok st,
       code (post_order schema_accepts now' rnd new_id notify_ok st od).2 ≠ 400).
Proof.
  intros Htrim.
  assert (∀ od,
     CartCheckout.handlePlaceOrder number_toString JSON_stringify
       (CartForm.validateForm trim js_length name_pattern_test phone_pattern_test)
       now form items subtotal_number fee_number = Some od →
     items ≠ [] ∧ missing_required od = false) as Hsent.
  { intros od. unfold CartCheckout.handlePlaceOrder.
    destruct (CartForm.validateForm _ _ _ _ form) as [|e errors] eqn:Hvalid; [|done].
    destruct (validateForm_nonempty _ _ _ _ _ Htrim Hvalid)
      as (Hname & Hphone & Haddress).
    destruct items as [|item items']; [done|]. cbn [length Nat.ltb Nat.leb Nat.eqb].
    intros [= <-]. split; [done|]. unfold missing_required.
    cbn [od_customerName od_customerPhone od_deliveryAddress].
    by rewrite !truthy_Some. }
  split.
  - intros Hempty.
    destruct (CartCheckout.handlePlaceOrder _ _ _ _ _ _ _ _) as [od|] eqn:Hplace;
      [|done].
    exfalso. destruct (Hsent od eq_refl) as [Hitems Hrequired].
    unfold CartCheckout.handlePlaceOrder in Hplace.
    destruct (CartForm.validateForm _ _ _ _ form) as [|e errors] eqn:Hvalid; [|done].
    destruct (validateForm_nonempty _ _ _ _ _ Htrim Hvalid)
      as (Hname & Hphone & Haddress).
    destruct_or!; done.
  - intros od Hplace. destruct (Hsent od Hplace) as [_ Hrequired].
    split; [exact Hrequired|]. intros schema_accepts now' rnd new_id notify_ok st.
    unfold post_order, insertOrderSchema_parse. rewrite Hrequired.
    destruct (schema_accepts _); simpl; lia.
Qed.

Lemma validated_checkout_passes_required_fields_witness :
  ∃ od,
    CartCheckout.handlePlaceOrder CheckoutSample.whole_number_toString
      CheckoutSample.stringify
      (CartForm.validateForm (λ s, s) String.length (λ _, true) (λ _, true))
      1700000000000 CheckoutSample.form CheckoutSample.cart
      CheckoutSample.fifty CheckoutSample.five = Some od ∧
    missing_required od = false ∧
    code (post_order (λ _, true) 1700000000500 42 "o2" true sample_store od).2 ≠ 400.
Proof.
  eexists. split; [reflexivity|].
  destruct (validated_checkout_passes_required_fields
              (λ s, s) String.length (λ _, true) (λ _, true)
              CheckoutSample.whole_number_toString CheckoutSample.stringify
              1700000000000 CheckoutSample.form CheckoutSample.cart
              CheckoutSample.fifty CheckoutSample.five eq_refl) as [_ Hsent].
  destruct (Hsent _ eq_refl) as [Hrequired Hcode].
  split; [exact Hrequired|apply Hcode].
Defined.
